(** * Time-Travel Photo Booth: the request client, the encoder and the session
      controller of [src/App.tsx], [src/services/geminiService.ts] and the
      file helper imported as [./utils/fileUtils].

    The TypeScript is embedded shallowly.  A promise is represented by the
    way it settles ([Settled]); an [async] function is cut at its [await]
    into the part that runs before the suspension and the part that runs
    when the awaited promise settles; React state is a record updated by
    the setters; everything the browser or the remote service decides is
    an argument of the function or of the event that delivers it. *)

From Stdlib Require Import String Ascii List Bool Arith Lia.
Import ListNotations.
Open Scope string_scope.

(** ** JavaScript values the code throws and awaits *)

Module Js.

(** A thrown value.  [ErrorObject name message] is any instance of
    [Error] (so [err instanceof Error] holds), subclasses included;
    [OtherValue] is anything else a promise can reject with, such as the
    [ProgressEvent] a [FileReader] hands to [onerror]. *)
Inductive Thrown : Type :=
| ErrorObject (name message : string)
| OtherValue (description : string).

Definition instanceofError (e : Thrown) : bool :=
  match e with
  | ErrorObject _ _ => true
  | OtherValue _ => false
  end.

(** How a [Promise<A>] settles. *)
Inductive Settled (A : Type) : Type :=
| Fulfilled (a : A)
| Rejected (e : Thrown).
Arguments Fulfilled {A} a.
Arguments Rejected {A} e.

(** [new Error(message)]. *)
Definition newError (message : string) : Thrown := ErrorObject "Error" message.

(** Reading a property of [undefined] throws a [TypeError]; so does
    iterating [undefined] with [for ... of]. *)
Definition readOfUndefined (prop : string) : Thrown :=
  ErrorObject "TypeError"
    ("Cannot read properties of undefined (reading '" ++ prop ++ "')").
Definition notIterable : Thrown :=
  ErrorObject "TypeError" "response.candidates[0].content.parts is not iterable".

(** Truthiness of a string: only the empty string is falsy. *)
Definition truthy (s : string) : bool :=
  match s with
  | EmptyString => false
  | String _ _ => true
  end.

(** [s.split(sep)] for a one-character separator: the pieces between the
    occurrences of [sep], in order; a string without [sep] is its own
    single piece. *)
Fixpoint split (sep : ascii) (s : string) : list string :=
  match s with
  | EmptyString => [EmptyString]
  | String c rest =>
      if Ascii.eqb c sep then EmptyString :: split sep rest
      else match split sep rest with
           | piece :: pieces => String c piece :: pieces
           | [] => [String c EmptyString]
           end
  end.

(** [s] has no occurrence of [sep]. *)
Fixpoint free_of (sep : ascii) (s : string) : bool :=
  match s with
  | EmptyString => true
  | String c rest => negb (Ascii.eqb c sep) && free_of sep rest
  end.

(** [xs[i]]: [None] stands for [undefined]. *)
Definition index {A} (xs : list A) (i : nat) : option A := nth_error xs i.

End Js.
Import Js.

(** ** [src/services/geminiService.ts] *)

Module GeminiService.

(** Modelled from the spec: the request and response types of the
    [@google/genai] SDK, whose declarations are not among the sources.
    A response holds an ordered list of content parts, each optionally
    carrying image data; [editImage] reaches the list at
    [response.candidates[0].content.parts], and in JavaScript every level
    on that path may be absent. *)
Record Blob := { data : string; blobMimeType : string }.
Record Part := { text : option string; inlineData : option Blob }.
Record Content := { parts : option (list Part) }.
Record Candidate := { content : option Content }.
Record GenerateContentResponse := { candidates : option (list Candidate) }.

Inductive Modality := IMAGE | TEXT.

Record GenerateContentParameters := {
  model : string;
  contents : list Part;
  responseModalities : list Modality
}.

(** The argument of [ai.models.generateContent] (lines 18-36). *)
Definition editImage_request (base64Image mimeType prompt : string)
  : GenerateContentParameters :=
  {| model := "gemini-2.5-flash-image";
     contents :=
       [ {| text := None;
            inlineData := Some {| data := base64Image; blobMimeType := mimeType |} |};
         {| text := Some prompt; inlineData := None |} ];
     responseModalities := [IMAGE] |}.

(** [response.candidates[0].content.parts] (line 40): the list the loop
    iterates, or the [TypeError] the access throws. *)
Definition response_parts (response : GenerateContentResponse)
  : Thrown + list Part :=
  match candidates response with
  | None => inl (readOfUndefined "0")
  | Some cs =>
      match index cs 0 with
      | None => inl (readOfUndefined "content")
      | Some c =>
          match content c with
          | None => inl (readOfUndefined "parts")
          | Some ct =>
              match parts ct with
              | None => inl notIterable
              | Some ps => inr ps
              end
          end
      end
  end.

(** The [for ... of] loop of lines 40-44: the [data] of the first part
    whose [inlineData] is truthy, [None] when the loop falls through. *)
Fixpoint scan_parts (ps : list Part) : option string :=
  match ps with
  | [] => None
  | part :: rest =>
      match inlineData part with
      | Some blob => Some (data blob)
      | None => scan_parts rest
      end
  end.

Definition NoImageReturned : Thrown :=
  newError "No image data was found in the Gemini API response.".

(** What [editImage] does once the awaited remote call has settled
    (lines 38-46).  A rejection of the awaited promise is rethrown by
    [await] and, there being no [try], rejects [editImage]'s promise. *)
Definition editImage_resume (remote : Settled GenerateContentResponse)
  : Settled string :=
  match remote with
  | Rejected e => Rejected e
  | Fulfilled response =>
      match response_parts response with
      | inl e => Rejected e
      | inr ps =>
          match scan_parts ps with
          | Some d => Fulfilled d
          | None => Rejected NoImageReturned
          end
      end
  end.

(** [editImage], with the remote service as a parameter: the client built
    from [process.env.API_KEY] (line 16) and its [generateContent]. *)
Definition editImage
  (generateContent : GenerateContentParameters -> Settled GenerateContentResponse)
  (base64Image mimeType prompt : string) : Settled string :=
  editImage_resume (generateContent (editImage_request base64Image mimeType prompt)).

(** A part carries image data when [part.inlineData] is present. *)
Definition carries_image (p : Part) : bool :=
  match inlineData p with Some _ => true | None => false end.

(** Every content part of a response, over all its candidates. *)
Definition every_part (response : GenerateContentResponse) : list Part :=
  match candidates response with
  | Some cs =>
      flat_map
        (fun c => match content c with
                  | Some ct => match parts ct with Some ps => ps | None => [] end
                  | None => []
                  end)
        cs
  | None => []
  end.

(** A response whose first candidate holds the parts [ps]. *)
Definition response_of_parts (ps : list Part) : GenerateContentResponse :=
  {| candidates := Some [ {| content := Some {| parts := Some ps |} |} ] |}.

End GeminiService.
Import GeminiService.

(** ** The file helper ([fileToBase64]) *)

Module FileUtils.

(** What the browser's [FileReader] does with [readAsDataURL(file)]:
    it fires [load] with [reader.result] a string, or [error] with an
    event. *)
Inductive ReadOutcome : Type :=
| Loaded (result : string)
| ReadError (event : string).

Definition ReadFailure : Thrown :=
  newError "Failed to read base64 data from file.".

Section Reader.
Context {File : Type}.
(** The browser: how reading a given file ends. *)
Variable readAsDataURL : File -> ReadOutcome.

Definition fileToBase64 (file : File) : Settled string :=
  match readAsDataURL file with
  | Loaded result =>
      match index (split "," result) 1 with
      | Some base64Data =>
          if truthy base64Data then Fulfilled base64Data
          else Rejected ReadFailure
      | None => Rejected ReadFailure
      end
  | ReadError event => Rejected (OtherValue event)
  end.
End Reader.

End FileUtils.
Import FileUtils.

(** ** [src/App.tsx]: the session controller *)

Module App.

(** *** Types and constants (lines 8-31) *)

Record UserImage := { base64 : string; url : string; mimeType : string }.

Record Scene := {
  id : string;
  name : string;
  description : string;
  promptFragment : string;
  bgColor : string;
  textColor : string
}.

Definition HISTORICAL_SCENES : list Scene :=
  [ {| id := "rome"; name := "Ancient Rome"; description := "The bustling Roman Forum";
       promptFragment := "a scene in the Roman Forum, with classical architecture and citizens in togas";
       bgColor := "bg-amber-800"; textColor := "text-amber-100" |};
    {| id := "dino"; name := "Jurassic Era"; description := "Amongst the dinosaurs";
       promptFragment := "a lush, prehistoric jungle teeming with dinosaurs like T-Rex and Brontosaurus";
       bgColor := "bg-emerald-800"; textColor := "text-emerald-100" |};
    {| id := "paris"; name := "1920s Paris"; description := "The Roaring Twenties";
       promptFragment := "a vibrant street scene in 1920s Paris, with flapper dresses, vintage cars, and Art Deco architecture";
       bgColor := "bg-slate-700"; textColor := "text-slate-100" |};
    {| id := "moon"; name := "Moon Landing"; description := "First steps on the moon";
       promptFragment := "the surface of the moon during the Apollo landing, with the Earth visible in the sky and the lunar module nearby";
       bgColor := "bg-indigo-900"; textColor := "text-indigo-100" |};
    {| id := "viking"; name := "Viking Age"; description := "Exploring the fjords";
       promptFragment := "a Viking longship sailing through a misty fjord, surrounded by dramatic cliffs and Norse warriors";
       bgColor := "bg-cyan-900"; textColor := "text-cyan-100" |};
    {| id := "future"; name := "Cyberpunk City"; description := "A neon-lit future";
       promptFragment := "a futuristic cyberpunk city at night, filled with flying vehicles, neon signs, and towering skyscrapers";
       bgColor := "bg-purple-900"; textColor := "text-purple-100" |} ].

(** *** The six [useState] cells (lines 34-39) *)

Record Session := {
  userImage : option UserImage;
  selectedScene : option Scene;
  generatedImage : option UserImage;
  isLoading : bool;
  error : option string;
  isCameraOn : bool
}.

Definition initial : Session :=
  {| userImage := None; selectedScene := None; generatedImage := None;
     isLoading := false; error := None; isCameraOn := false |}.

Definition setUserImage (v : option UserImage) (s : Session) : Session :=
  {| userImage := v; selectedScene := selectedScene s;
     generatedImage := generatedImage s; isLoading := isLoading s;
     error := error s; isCameraOn := isCameraOn s |}.
Definition setSelectedScene (v : option Scene) (s : Session) : Session :=
  {| userImage := userImage s; selectedScene := v;
     generatedImage := generatedImage s; isLoading := isLoading s;
     error := error s; isCameraOn := isCameraOn s |}.
Definition setGeneratedImage (v : option UserImage) (s : Session) : Session :=
  {| userImage := userImage s; selectedScene := selectedScene s;
     generatedImage := v; isLoading := isLoading s;
     error := error s; isCameraOn := isCameraOn s |}.
Definition setIsLoading (v : bool) (s : Session) : Session :=
  {| userImage := userImage s; selectedScene := selectedScene s;
     generatedImage := generatedImage s; isLoading := v;
     error := error s; isCameraOn := isCameraOn s |}.
Definition setError (v : option string) (s : Session) : Session :=
  {| userImage := userImage s; selectedScene := selectedScene s;
     generatedImage := generatedImage s; isLoading := isLoading s;
     error := v; isCameraOn := isCameraOn s |}.
Definition setIsCameraOn (v : bool) (s : Session) : Session :=
  {| userImage := userImage s; selectedScene := selectedScene s;
     generatedImage := generatedImage s; isLoading := isLoading s;
     error := error s; isCameraOn := v |}.

(** *** What lives outside the React state *)

Inductive ReadyState := live | ended.
Record MediaStreamTrack := { kind : string; readyState : ReadyState }.
Definition MediaStream := list MediaStreamTrack.

(** [track.stop()] *)
Definition stop (t : MediaStreamTrack) : MediaStreamTrack :=
  {| kind := kind t; readyState := ended |}.

Record File := {
  fileName : string;
  type : string;
  objectURL : string   (* what [URL.createObjectURL(file)] returns *)
}.

(** The video frame [handleCapture] draws and the JPEG payload the
    canvas encodes it to. *)
Record VideoFrame := { videoWidth : nat; videoHeight : nat; jpeg : string }.

(** [canvas.toDataURL('image/jpeg')]: a canvas without pixels gives
    ["data:,"]. *)
Definition toDataURL (f : VideoFrame) : string :=
  if Nat.eqb (videoWidth f) 0 || Nat.eqb (videoHeight f) 0 then "data:,"
  else "data:image/jpeg;base64," ++ jpeg f.

(** An [editImage] promise [handleGenerate] awaits, with what its
    closure holds: the captured [userImage] and [selectedScene] and the
    local [prompt]. *)
Record PendingEdit := {
  edit_ticket : nat;
  edit_userImage : UserImage;
  edit_scene : Scene;
  edit_prompt : string
}.

(** The request that went out with it (lines 121-125). *)
Definition edit_request (p : PendingEdit) : GenerateContentParameters :=
  editImage_request (base64 (edit_userImage p)) (mimeType (edit_userImage p))
    (edit_prompt p).

(** A [fileToBase64] promise [handleFileChange] awaits. *)
Record PendingRead := { read_ticket : nat; read_file : File }.

Record World := {
  session : Session;
  next_ticket : nat;              (* names the promises as they are created *)
  inflight : list PendingEdit;    (* remote calls not yet settled *)
  reading : list PendingRead;     (* file reads not yet settled *)
  console : list Thrown;          (* [console.error] *)
  streams : list MediaStream;     (* every stream the device handed out, by position *)
  effect_run : nat;               (* the run of the camera effect now mounted *)
  effect_stream : option nat;     (* its variable [stream] *)
  acquiring : list nat;           (* runs whose [getUserMedia] is pending *)
  fileInput : option string       (* [fileInputRef.current.value]; [None]: no element *)
}.

Definition boot : World :=
  {| session := initial; next_ticket := 0; inflight := []; reading := [];
     console := []; streams := []; effect_run := 0; effect_stream := None;
     acquiring := []; fileInput := Some "" |}.

Definition with_session (f : Session -> Session) (w : World) : World :=
  {| session := f (session w); next_ticket := next_ticket w;
     inflight := inflight w; reading := reading w; console := console w;
     streams := streams w; effect_run := effect_run w;
     effect_stream := effect_stream w; acquiring := acquiring w;
     fileInput := fileInput w |}.

Definition log_error (e : Thrown) (w : World) : World :=
  {| session := session w; next_ticket := next_ticket w;
     inflight := inflight w; reading := reading w; console := console w ++ [e];
     streams := streams w; effect_run := effect_run w;
     effect_stream := effect_stream w; acquiring := acquiring w;
     fileInput := fileInput w |}.

(** *** Camera effect (lines 46-67)

    The effect depends on [isCameraOn] alone: when a handler has changed
    it, React runs the cleanup of the mounted run and then the effect
    again.  Each run has its own variable [stream]; a run started with
    the camera on asks the device for a stream and assigns the variable
    when the device answers.  The assignment to the video element's
    [srcObject] only feeds the display and is left out. *)

Fixpoint update {A} (i : nat) (f : A -> A) (xs : list A) : list A :=
  match xs, i with
  | [], _ => []
  | x :: rest, 0 => f x :: rest
  | x :: rest, S j => x :: update j f rest
  end.

(** Lines 62-66: [if (stream) stream.getTracks().forEach(track => track.stop())]. *)
Definition cleanup (w : World) : World :=
  {| session := session w; next_ticket := next_ticket w;
     inflight := inflight w; reading := reading w; console := console w;
     streams := match effect_stream w with
                | Some i => update i (map stop) (streams w)
                | None => streams w
                end;
     effect_run := effect_run w; effect_stream := effect_stream w;
     acquiring := acquiring w; fileInput := fileInput w |}.

(** Lines 47-61 up to the [await]: a fresh [stream = null], and the
    request to the device when the camera is on. *)
Definition run_effect (w : World) : World :=
  {| session := session w; next_ticket := next_ticket w;
     inflight := inflight w; reading := reading w; console := console w;
     streams := streams w;
     effect_run := S (effect_run w); effect_stream := None;
     acquiring := if isCameraOn (session w)
                  then acquiring w ++ [S (effect_run w)] else acquiring w;
     fileInput := fileInput w |}.

(** The file input is rendered by [renderLeftPanel] only with the camera
    off and no photo (lines 155-186); a newly created element is empty. *)
Definition render (w : World) : World :=
  {| session := session w; next_ticket := next_ticket w;
     inflight := inflight w; reading := reading w; console := console w;
     streams := streams w; effect_run := effect_run w;
     effect_stream := effect_stream w; acquiring := acquiring w;
     fileInput :=
       match isCameraOn (session w), userImage (session w) with
       | false, None => Some (match fileInput w with Some v => v | None => "" end)
       | _, _ => None
       end |}.

(** What React does after a handler returns; [was] is [isCameraOn]
    before the handler ran. *)
Definition commit (was : bool) (w : World) : World :=
  if Bool.eqb was (isCameraOn (session w)) then render w
  else run_effect (cleanup (render w)).

Definition camera_failed : string :=
  "Could not access the camera. Please check permissions.".

(** Lines 50-60: the device answers the request of effect run [run]. *)
Definition getUserMedia_settled (run : nat) (answer : Settled MediaStream)
    (w : World) : World :=
  if existsb (Nat.eqb run) (acquiring w) then
    let rest := filter (fun r => negb (Nat.eqb run r)) (acquiring w) in
    match answer with
    | Fulfilled mediaStream =>
        {| session := session w; next_ticket := next_ticket w;
           inflight := inflight w; reading := reading w; console := console w;
           streams := streams w ++ [mediaStream];
           effect_run := effect_run w;
           effect_stream := if Nat.eqb run (effect_run w)
                            then Some (length (streams w))
                            else effect_stream w;
           acquiring := rest; fileInput := fileInput w |}
    | Rejected err =>
        {| session := setIsCameraOn false (setError (Some camera_failed) (session w));
           next_ticket := next_ticket w;
           inflight := inflight w; reading := reading w;
           console := console w ++ [err];
           streams := streams w; effect_run := effect_run w;
           effect_stream := effect_stream w;
           acquiring := rest; fileInput := fileInput w |}
    end
  else w.

(** *** Handlers (lines 70-151) *)

Definition read_failed : string := "Could not read the selected file.".

(** [handleFileChange] up to [await fileToBase64(file)]. *)
Definition handleFileChange (file : option File) (w : World) : World :=
  match file with
  | Some f =>
      {| session := session w; next_ticket := S (next_ticket w);
         inflight := inflight w;
         reading := reading w ++ [ {| read_ticket := next_ticket w; read_file := f |} ];
         console := console w; streams := streams w;
         effect_run := effect_run w; effect_stream := effect_stream w;
         acquiring := acquiring w; fileInput := fileInput w |}
  | None => w
  end.

(** [handleFileChange] from the [await] on (lines 74-83). *)
Definition handleFileChange_resume (file : File) (read : Settled string)
    (w : World) : World :=
  match read with
  | Fulfilled base64 =>
      with_session
        (fun s => setError None
           (setUserImage
              (Some {| base64 := base64; url := objectURL file; mimeType := type file |}) s))
        w
  | Rejected _ => with_session (setError (Some read_failed)) w
  end.

(** [handleCapture] (lines 87-107).  The two refs are attached exactly
    while the camera panel is rendered; [frame] is [None] when
    [getContext('2d')] gives [null].  A data URL always has a second
    piece (see [toDataURL_second_piece]). *)
Definition handleCapture (frame : option VideoFrame) (w : World) : World :=
  if isCameraOn (session w) then
    match frame with
    | Some video =>
        let dataUrl := toDataURL video in
        let base64 := match index (split "," dataUrl) 1 with
                      | Some piece => piece
                      | None => ""
                      end in
        with_session
          (fun s => setError None
             (setIsCameraOn false
                (setUserImage
                   (Some {| base64 := base64; url := dataUrl; mimeType := "image/jpeg" |}) s)))
          w
    | None => w
    end
  else w.

Definition validation_failed : string :=
  "Please provide a photo and select a scene.".

(** The template literal of line 118. *)
Definition prompt_for (scene : Scene) : string :=
  "Take the person in the provided photo and seamlessly place them into a new scene. The scene should be: "
  ++ promptFragment scene
  ++ ". The final image should look like a vintage photograph, matching the historical era in style, lighting, and color tone.".

(** [handleGenerate] up to [await editImage(...)] (lines 110-125). *)
Definition handleGenerate (w : World) : World :=
  match userImage (session w), selectedScene (session w) with
  | Some photo, Some scene =>
      let prompt := prompt_for scene in
      {| session := setGeneratedImage None (setError None (setIsLoading true (session w)));
         next_ticket := S (next_ticket w);
         inflight := inflight w ++
           [ {| edit_ticket := next_ticket w;
                edit_userImage := photo; edit_scene := scene;
                edit_prompt := prompt |} ];
         reading := reading w; console := console w; streams := streams w;
         effect_run := effect_run w; effect_stream := effect_stream w;
         acquiring := acquiring w; fileInput := fileInput w |}
  | _, _ => with_session (setError (Some validation_failed)) w
  end.

(** The image stored on success (lines 126-130); [photo] is the
    [userImage] the closure captured. *)
Definition edited (photo : UserImage) (editedImageBase64 : string) : UserImage :=
  {| base64 := editedImageBase64;
     mimeType := mimeType photo;
     url := "data:" ++ mimeType photo ++ ";base64," ++ editedImageBase64 |}.

(** The message of the [catch] block (lines 133-137). *)
Definition describe (err : Thrown) : string :=
  match err with
  | ErrorObject _ message => "An error occurred: " ++ message
  | OtherValue _ => "An unknown error occurred."
  end.

(** [handleGenerate] from the [await] on (lines 126-140). *)
Definition handleGenerate_resume (photo : UserImage) (outcome : Settled string)
    (w : World) : World :=
  with_session (setIsLoading false)
    match outcome with
    | Fulfilled editedImageBase64 =>
        with_session (setGeneratedImage (Some (edited photo editedImageBase64))) w
    | Rejected err =>
        with_session (setError (Some (describe err))) (log_error err w)
    end.

(** [reset] (lines 143-151). *)
Definition reset (w : World) : World :=
  {| session :=
       setIsCameraOn false
         (setIsLoading false
            (setError None
               (setGeneratedImage None
                  (setSelectedScene None
                     (setUserImage None (session w))))));
     next_ticket := next_ticket w;
     inflight := inflight w; reading := reading w; console := console w;
     streams := streams w; effect_run := effect_run w;
     effect_stream := effect_stream w; acquiring := acquiring w;
     fileInput := match fileInput w with
                  | Some _ => Some ""
                  | None => None
                  end |}.

(** *** Everything that can happen to the component *)

Inductive Event : Type :=
| EvUseCamera                                   (* "Use Camera": [setIsCameraOn(true)] *)
| EvCancelCamera                                (* "Cancel": [setIsCameraOn(false)] *)
| EvDevice (run : nat) (answer : Settled MediaStream)
| EvCapture (frame : option VideoFrame)         (* "Capture Photo" *)
| EvFileChange (file : option File)             (* the file input changes *)
| EvFileRead (ticket : nat) (read : ReadOutcome)
| EvSelectScene (k : nat)                       (* the [k]-th scene button *)
| EvGenerate                                    (* "Start Time-Travel!" *)
| EvRemote (ticket : nat) (remote : Settled GenerateContentResponse)
| EvReset.                                      (* the clear button of the photo *)

Definition set_inflight (l : list PendingEdit) (w : World) : World :=
  {| session := session w; next_ticket := next_ticket w;
     inflight := l; reading := reading w; console := console w;
     streams := streams w; effect_run := effect_run w;
     effect_stream := effect_stream w; acquiring := acquiring w;
     fileInput := fileInput w |}.

Definition set_reading (l : list PendingRead) (w : World) : World :=
  {| session := session w; next_ticket := next_ticket w;
     inflight := inflight w; reading := l; console := console w;
     streams := streams w; effect_run := effect_run w;
     effect_stream := effect_stream w; acquiring := acquiring w;
     fileInput := fileInput w |}.

(** The browser puts the chosen file's name into the input before it
    fires [change] (the fixed fake directory it shows in front is left
    out). *)
Definition choose (file : option File) (w : World) : World :=
  {| session := session w; next_ticket := next_ticket w;
     inflight := inflight w; reading := reading w; console := console w;
     streams := streams w; effect_run := effect_run w;
     effect_stream := effect_stream w; acquiring := acquiring w;
     fileInput := match fileInput w, file with
                  | Some _, Some f => Some (fileName f)
                  | Some _, None => Some ""
                  | None, _ => None
                  end |}.

Definition has_edit (t : nat) (p : PendingEdit) : bool := Nat.eqb (edit_ticket p) t.
Definition has_read (t : nat) (p : PendingRead) : bool := Nat.eqb (read_ticket p) t.

(** The remote call of promise [ticket] settles: [editImage] finishes
    and [handleGenerate] resumes with its outcome. *)
Definition remote_settled (ticket : nat)
    (remote : Settled GenerateContentResponse) (w : World) : World :=
  match find (has_edit ticket) (inflight w) with
  | Some p =>
      let photo := edit_userImage p in
      handleGenerate_resume photo
        (editImage (fun _ => remote) (base64 photo) (mimeType photo) (edit_prompt p))
        (set_inflight (filter (fun q => negb (has_edit ticket q)) (inflight w)) w)
  | None => w
  end.

(** The [FileReader] of promise [ticket] finishes. *)
Definition read_settled (ticket : nat) (read : ReadOutcome) (w : World) : World :=
  match find (has_read ticket) (reading w) with
  | Some p =>
      handleFileChange_resume (read_file p)
        (fileToBase64 (fun _ => read) (read_file p))
        (set_reading (filter (fun q => negb (has_read ticket q)) (reading w)) w)
  | None => w
  end.

(** The scene buttons are those of the catalog (lines 212-221). *)
Definition selectScene (k : nat) (w : World) : World :=
  match index HISTORICAL_SCENES k with
  | Some scene => with_session (setSelectedScene (Some scene)) w
  | None => w
  end.

Definition handle (e : Event) (w : World) : World :=
  match e with
  | EvUseCamera => with_session (setIsCameraOn true) w
  | EvCancelCamera => with_session (setIsCameraOn false) w
  | EvDevice run answer => getUserMedia_settled run answer w
  | EvCapture frame => handleCapture frame w
  | EvFileChange file => handleFileChange file (choose file w)
  | EvFileRead ticket read => read_settled ticket read w
  | EvSelectScene k => selectScene k w
  | EvGenerate => handleGenerate w
  | EvRemote ticket remote => remote_settled ticket remote w
  | EvReset => reset w
  end.

(** One turn of the event loop: the handler, then React's commit. *)
Definition step (e : Event) (w : World) : World :=
  commit (isCameraOn (session w)) (handle e w).

(** The component after a history of events, oldest first. *)
Definition exec_from (w : World) (history : list Event) : World :=
  fold_left (fun w e => step e w) history w.
Definition exec (history : list Event) : World := exec_from boot history.

(** *** What the rendered page lets the user do (lines 154-234)

    The handlers above run whenever they are called.  [offered] adds
    which controls the page shows in a given state, so that a history
    can be checked to be one a user can produce. *)

Definition present {A} (o : option A) : bool :=
  match o with Some _ => true | None => false end.

(** The right panel shows the scene picker and the generate button
    (line 201) only while there is a photo and none of
    [generatedImage], [isLoading], [error] is truthy. *)
Definition picker_shown (s : Session) : bool :=
  present (userImage s)
  && negb (present (generatedImage s)
           || isLoading s
           || match error s with Some m => truthy m | None => false end).

Definition offered (e : Event) (w : World) : bool :=
  let s := session w in
  match e with
  | EvUseCamera | EvFileChange _ =>
      negb (isCameraOn s) && negb (present (userImage s))
  | EvCancelCamera | EvCapture _ => isCameraOn s
  | EvReset =>
      negb (isCameraOn s)
      && match userImage s with Some photo => truthy (url photo) | None => false end
  | EvSelectScene k => picker_shown s && present (index HISTORICAL_SCENES k)
  | EvGenerate =>
      picker_shown s && negb (isLoading s || negb (present (selectedScene s)))
  | EvDevice run _ => existsb (Nat.eqb run) (acquiring w)
  | EvFileRead ticket _ => existsb (has_read ticket) (reading w)
  | EvRemote ticket _ => existsb (has_edit ticket) (inflight w)
  end.

Fixpoint offered_from (w : World) (history : list Event) : bool :=
  match history with
  | [] => true
  | e :: rest => offered e w && offered_from (step e w) rest
  end.

(** *** The states of the spec's state machine *)

Definition Idle (s : Session) : Prop := s = initial.

Definition Pending (s : Session) : Prop :=
  isLoading s = true /\ error s = None /\ generatedImage s = None.

Definition ResultReady (s : Session) (result : UserImage) : Prop :=
  generatedImage s = Some result /\ isLoading s = false.

Definition ResultError (s : Session) (message : string) : Prop :=
  error s = Some message /\ message <> "" /\
  generatedImage s = None /\ isLoading s = false.

(** The reading of "a reset invalidates what is in flight": whatever
    settles after a reset leaves [generatedImage] unset. *)
Definition reset_invalidates_inflight : Prop :=
  forall (history : list Event) (ticket : nat)
         (remote : Settled GenerateContentResponse),
    generatedImage
      (session (step (EvRemote ticket remote) (exec (history ++ [EvReset]))))
    = None.

Definition all_ended (ms : MediaStream) : Prop :=
  Forall (fun t => readyState t = ended) ms.

(** *** Invariants of the reachable states *)

(** Promises still pending were created earlier than the next one. *)
Definition tickets_fresh (w : World) : Prop :=
  Forall (fun p => edit_ticket p < next_ticket w) (inflight w) /\
  Forall (fun p => read_ticket p < next_ticket w) (reading w).

(** Only a run started with the camera on asks for a stream, so the
    mounted run can hold or expect one only while the camera is on;
    what it holds is a stream the device has handed out.  [on] is the
    value of [isCameraOn] the mounted run was started with. *)
Definition coherent_with (on : bool) (w : World) : Prop :=
  Forall (fun r => r <= effect_run w) (acquiring w) /\
  (In (effect_run w) (acquiring w) -> on = true) /\
  (forall i, effect_stream w = Some i -> on = true /\ i < length (streams w)) /\
  (effect_stream w <> None -> ~ In (effect_run w) (acquiring w)).

Definition camera_coherent (w : World) : Prop :=
  coherent_with (isCameraOn (session w)) w.

(** Every stream except the one the mounted run holds is stopped. *)
Definition others_ended (w : World) : Prop :=
  forall j ms, index (streams w) j = Some ms ->
               effect_stream w = Some j \/ all_ended ms.

(** The device never answers a run that has been cleaned up already:
    each stream it grants goes to the run mounted at that moment. *)
Definition timely (e : Event) (w : World) : bool :=
  match e with
  | EvDevice run (Fulfilled _) => Nat.eqb run (effect_run w)
  | _ => true
  end.

Fixpoint timely_from (w : World) (history : list Event) : bool :=
  match history with
  | [] => true
  | e :: rest => timely e w && timely_from (step e w) rest
  end.

(** What a set loading flag stands for: a call in flight, for a photo and
    a scene that are still there. *)
Definition loading_is_backed (w : World) : Prop :=
  isLoading (session w) = true ->
  inflight w <> [] /\
  present (userImage (session w)) = true /\
  present (selectedScene (session w)) = true.

End App.
Import App.

(** ** [src/components/ImageSlot.tsx] and the render functions of [src/App.tsx]

    JSX is embedded by what it puts on the page: for each conditional
    block of the component, whether it is rendered and with which
    content. *)

Module Page.

(** [x && ...] and [x || ...] on a [string | null]: [null] and the empty
    string are falsy. *)
Definition truthy_opt (o : option string) : bool :=
  match o with Some text => truthy text | None => false end.

(** [ImageSlotProps] (lines 5-11); an omitted [isLoading] is [false], an
    omitted [error] is [null] (lines 16-17); [onClear] records whether a
    handler was passed. *)
Record ImageSlotProps := {
  title : string;
  imageUrl : option string;
  isLoading : bool;
  error : option string;
  onClear : bool
}.

(** The blocks of the slot (lines 25-60); the title is always shown. *)
Record SlotView := {
  spinner : bool;               (* lines 25-30 *)
  errorPanel : option string;   (* lines 31-37, with the message *)
  image : option string;        (* lines 38-44, with the [src] *)
  placeholder : bool;           (* lines 45-51 *)
  clearButton : bool            (* lines 52-60 *)
}.

Definition ImageSlot (props : ImageSlotProps) : SlotView :=
  let hasContent :=
    truthy_opt (imageUrl props) || isLoading props || truthy_opt (error props) in
  {| spinner := isLoading props;
     errorPanel :=
       if truthy_opt (error props) && negb (isLoading props) then error props else None;
     image :=
       if truthy_opt (imageUrl props) && negb (truthy_opt (error props))
       then imageUrl props else None;
     placeholder := negb hasContent;
     clearButton := onClear props && truthy_opt (imageUrl props) |}.

(** [renderLeftPanel] (lines 154-187). *)
Inductive LeftPanel : Type :=
| CameraPanel                      (* video, "Capture Photo", "Cancel" *)
| YourPhoto (slot : SlotView)      (* the photo, cleared by [reset] *)
| Step1.                           (* "Use Camera", the file input *)

Definition renderLeftPanel (s : Session) : LeftPanel :=
  if isCameraOn s then CameraPanel
  else match userImage s with
       | Some photo =>
           YourPhoto
             (ImageSlot {| title := "Your Photo"; imageUrl := Some (url photo);
                           isLoading := false; error := None; onClear := true |})
       | None => Step1
       end.

(** A scene button (lines 213-220): the ring of line 216 is drawn when
    [selectedScene?.id === scene.id]. *)
Record SceneButton := { button_scene : Scene; ringed : bool }.

Definition scene_button (s : Session) (scene : Scene) : SceneButton :=
  {| button_scene := scene;
     ringed := match selectedScene s with
               | Some chosen => String.eqb (id chosen) (id scene)
               | None => false
               end |}.

(** The generate button (lines 223-229). *)
Record GenerateButton := { disabled : bool; label : string }.

(** [renderRightPanel] (lines 189-234). *)
Inductive RightPanel : Type :=
| Step2Hint
| Result (slot : SlotView)
| Picker (buttons : list SceneButton) (generate : GenerateButton).

Definition renderRightPanel (s : Session) : RightPanel :=
  match userImage s with
  | None => Step2Hint
  | Some _ =>
      if present (generatedImage s) || App.isLoading s || truthy_opt (App.error s)
      then
        Result
          (ImageSlot
             {| title := "Time-Travel Result";
                imageUrl := match generatedImage s with
                            | Some result =>
                                if truthy (url result) then Some (url result) else None
                            | None => None
                            end;
                isLoading := App.isLoading s;
                error := App.error s;
                onClear := false |})
      else
        Picker (map (scene_button s) HISTORICAL_SCENES)
          {| disabled := App.isLoading s || negb (present (selectedScene s));
             label := if App.isLoading s then "Generating..." else "Start Time-Travel!" |}
  end.

(** Whether the control behind a user event is on the page. *)
Definition on_page (e : Event) (s : Session) : bool :=
  match e with
  | EvUseCamera | EvFileChange _ =>
      match renderLeftPanel s with Step1 => true | _ => false end
  | EvCancelCamera | EvCapture _ =>
      match renderLeftPanel s with CameraPanel => true | _ => false end
  | EvReset =>
      match renderLeftPanel s with YourPhoto slot => clearButton slot | _ => false end
  | EvSelectScene k =>
      match renderRightPanel s with
      | Picker buttons _ => present (index buttons k)
      | _ => false
      end
  | EvGenerate =>
      match renderRightPanel s with
      | Picker _ generate => negb (disabled generate)
      | _ => false
      end
  | EvDevice _ _ | EvFileRead _ _ | EvRemote _ _ => true
  end.

End Page.

(** ** Sample data *)

Module Sample.

Definition caption : Part := {| text := Some "here you go"; inlineData := None |}.
Definition picture : Part :=
  {| text := None; inlineData := Some {| data := "UQ=="; blobMimeType := "image/webp" |} |}.

Definition captioned : GenerateContentResponse := response_of_parts [caption; picture].
Definition wordy : GenerateContentResponse := response_of_parts [caption].

Definition denied : Thrown := ErrorObject "ApiError" "API key not valid".

(** A response without candidates. *)
Definition no_candidates : GenerateContentResponse := {| candidates := Some [] |}.

(** A response that stopped before producing any content. *)
Definition blocked : GenerateContentResponse :=
  {| candidates := Some [ {| content := None |} ] |}.

Definition rome : Scene :=
  {| id := "rome"; name := "Ancient Rome"; description := "The bustling Roman Forum";
     promptFragment := "a scene in the Roman Forum, with classical architecture and citizens in togas";
     bgColor := "bg-amber-800"; textColor := "text-amber-100" |}.

Definition portrait : File :=
  {| fileName := "me.png"; type := "image/png"; objectURL := "blob:booth/1" |}.
Definition portrait_read : ReadOutcome := Loaded "data:image/png;base64,cGhvdG8=".
Definition photo : UserImage :=
  {| base64 := "cGhvdG8="; url := "blob:booth/1"; mimeType := "image/png" |}.

Definition webcam : MediaStream := [ {| kind := "video"; readyState := live |} ].

(** "Use Camera", and the device grants the stream. *)
Definition camera_running : list Event :=
  [EvUseCamera; EvDevice 1 (Fulfilled webcam)].

(** The camera used twice: switched on, cancelled, switched on again. *)
Definition two_sessions : list Event :=
  camera_running ++ [EvCancelCamera; EvUseCamera; EvDevice 3 (Fulfilled webcam)].

(** Capture a frame instead, pick the first scene. *)
Definition snapshot : UserImage :=
  {| base64 := "c25hcA=="; url := "data:image/jpeg;base64,c25hcA==";
     mimeType := "image/jpeg" |}.
Definition snapshot_picked : list Event :=
  camera_running
  ++ [EvCapture (Some {| videoWidth := 640; videoHeight := 480; jpeg := "c25hcA==" |});
      EvSelectScene 0].

(** Upload the portrait, pick the first scene. *)
Definition scene_picked : list Event :=
  [EvFileChange (Some portrait); EvFileRead 0 portrait_read; EvSelectScene 0].

(** A call issued for the portrait, a reset while it is in flight, then a
    snapshot taken and a second call issued for it. *)
Definition two_calls : list Event :=
  scene_picked
  ++ [EvGenerate; EvReset; EvUseCamera; EvDevice 1 (Fulfilled webcam);
      EvCapture (Some {| videoWidth := 640; videoHeight := 480; jpeg := "c25hcA==" |});
      EvSelectScene 0; EvGenerate].

(** A file chosen, then the camera used and a snapshot taken before the
    read of the file has finished. *)
Definition read_overtaken : list Event :=
  [EvFileChange (Some portrait); EvUseCamera; EvDevice 1 (Fulfilled webcam);
   EvCapture (Some {| videoWidth := 640; videoHeight := 480; jpeg := "c25hcA==" |})].

(** The response arrives after the reset. *)
Definition stale_result : list Event :=
  scene_picked ++ [EvGenerate; EvReset; EvRemote 1 (Fulfilled captioned)].

(** "Use Camera", "Cancel" before the device has answered, the stream
    granted afterwards; then a photo uploaded. *)
Definition late_grant : list Event :=
  [EvUseCamera; EvCancelCamera; EvDevice 1 (Fulfilled webcam);
   EvFileChange (Some portrait); EvFileRead 0 portrait_read].

End Sample.

(** * Properties *)

Open Scope list_scope.

(** ** The request client *)

Section EditImage.

Variable generateContent : GenerateContentParameters -> Settled GenerateContentResponse.
Variables base64Image mimeType prompt : string.

(** The loop returns at the first part with [inlineData]: the parts
    before it are passed over. *)
Lemma scan_parts_skip (before rest : list Part) :
  existsb carries_image before = false ->
  scan_parts (before ++ rest) = scan_parts rest.
Proof.
  unfold carries_image.
  induction before as [|p before IH]; simpl; [reflexivity|].
  destruct (inlineData p); simpl; [discriminate|exact IH].
Qed.

(** A list with an image-bearing part splits at the first one. *)
Lemma first_image_split (ps : list Part) :
  existsb carries_image ps = true ->
  exists before part blob after,
    ps = before ++ part :: after /\
    existsb carries_image before = false /\
    inlineData part = Some blob.
Proof.
  induction ps as [|p ps IH]; simpl; [discriminate|].
  destruct (carries_image p) eqn:Hp; simpl.
  - intros _. unfold carries_image in Hp.
    destruct (inlineData p) as [blob|] eqn:Hblob; [|discriminate].
    exists [], p, blob, ps. auto.
  - intros H. destruct (IH H) as (before & part & blob & after & -> & Hb & Hi).
    exists (p :: before), part, blob, after. simpl. rewrite Hp. auto.
Qed.

Lemma scan_parts_none (ps : list Part) :
  existsb carries_image ps = false -> scan_parts ps = None.
Proof.
  intros H. rewrite <- (app_nil_r ps). now rewrite scan_parts_skip.
Qed.

(** C1.  When the remote response's list of content parts holds an
    image-bearing part, [editImage] resolves with the encoded data of
    the first such part; the parts before it, none of which carries
    image data, are ignored. *)
Theorem editImage_returns_first_image
    (response : GenerateContentResponse) (ps : list Part) :
  generateContent (editImage_request base64Image mimeType prompt) = Fulfilled response ->
  response_parts response = inr ps ->
  existsb carries_image ps = true ->
  exists before part blob after,
    ps = before ++ part :: after /\
    existsb carries_image before = false /\
    inlineData part = Some blob /\
    editImage generateContent base64Image mimeType prompt = Fulfilled (data blob).
Proof.
  intros Hremote Hparts Himage.
  destruct (first_image_split ps Himage) as (before & part & blob & after & Hps & Hb & Hi).
  exists before, part, blob, after. repeat split; try assumption.
  unfold editImage, editImage_resume. rewrite Hremote, Hparts, Hps.
  rewrite scan_parts_skip by assumption. simpl. now rewrite Hi.
Qed.

(** Where the response has a parts list and no part of it carries image
    data, [editImage] rejects with the no-image error; when the remote
    call itself rejects, [editImage] rejects with the very same value. *)
Theorem editImage_no_image_and_remote_failure :
  (forall response ps,
      generateContent (editImage_request base64Image mimeType prompt) = Fulfilled response ->
      response_parts response = inr ps ->
      existsb carries_image ps = false ->
      editImage generateContent base64Image mimeType prompt = Rejected NoImageReturned)
  /\
  (forall err,
      generateContent (editImage_request base64Image mimeType prompt) = Rejected err ->
      editImage generateContent base64Image mimeType prompt = Rejected err).
Proof.
  unfold editImage, editImage_resume. split.
  - intros response ps -> -> Hnone. now rewrite scan_parts_none.
  - now intros err ->.
Qed.

End EditImage.

(** The response of the spec's example, [[{text-only}, {image: X}]]. *)
Lemma editImage_text_then_image (t X m b mt p : string) :
  editImage
    (fun _ => Fulfilled
       (response_of_parts
          [ {| text := Some t; inlineData := None |};
            {| text := None; inlineData := Some {| data := X; blobMimeType := m |} |} ]))
    b mt p
  = Fulfilled X.
Proof. reflexivity. Qed.

(** A response without a first candidate, or whose candidate has no
    content or no parts, makes the access of line 40 throw: [editImage]
    rejects with that [TypeError]. *)
Lemma editImage_without_parts (response : GenerateContentResponse) (e : Thrown)
    (b mt p : string) :
  response_parts response = inl e ->
  editImage (fun _ => Fulfilled response) b mt p = Rejected e.
Proof. unfold editImage, editImage_resume. now intros ->. Qed.

Lemma editImage_returns_first_image_witness :
  exists before part blob after,
    [Sample.caption; Sample.picture] = before ++ part :: after /\
    existsb carries_image before = false /\
    inlineData part = Some blob /\
    editImage (fun _ => Fulfilled Sample.captioned) "cGhvdG8=" "image/jpeg" "to Rome"
    = Fulfilled (data blob).
Proof.
  apply (editImage_returns_first_image (fun _ => Fulfilled Sample.captioned)
           "cGhvdG8=" "image/jpeg" "to Rome"
           Sample.captioned [Sample.caption; Sample.picture]
           eq_refl eq_refl eq_refl).
Defined.

Lemma editImage_no_image_and_remote_failure_witness :
  editImage (fun _ => Fulfilled Sample.wordy) "cGhvdG8=" "image/jpeg" "to Rome"
  = Rejected NoImageReturned
  /\
  editImage (fun _ => Rejected Sample.denied) "cGhvdG8=" "image/jpeg" "to Rome"
  = Rejected Sample.denied.
Proof.
  split.
  - apply (proj1 (editImage_no_image_and_remote_failure
                    (fun _ => Fulfilled Sample.wordy) "cGhvdG8=" "image/jpeg" "to Rome")
             Sample.wordy [Sample.caption] eq_refl eq_refl eq_refl).
  - apply (proj2 (editImage_no_image_and_remote_failure
                    (fun _ => Rejected Sample.denied) "cGhvdG8=" "image/jpeg" "to Rome")
             Sample.denied eq_refl).
Defined.

(** ** The encoder *)

Section Split.

Variable sep : ascii.

Lemma split_not_nil (s : string) : split sep s <> [].
Proof.
  destruct s as [|c rest]; simpl; [discriminate|].
  destruct (Ascii.eqb c sep); [discriminate|].
  destruct (split sep rest); discriminate.
Qed.

Lemma split_free (s : string) : free_of sep s = true -> split sep s = [s].
Proof.
  induction s as [|c rest IH]; simpl; [reflexivity|].
  destruct (Ascii.eqb c sep); simpl; [discriminate|].
  intros H. now rewrite (IH H).
Qed.

Lemma split_at_first (pre rest : string) :
  free_of sep pre = true ->
  split sep (pre ++ String sep rest)%string = pre :: split sep rest.
Proof.
  induction pre as [|c pre IH]; simpl.
  - intros _. now rewrite Ascii.eqb_refl.
  - destruct (Ascii.eqb c sep); simpl; [discriminate|].
    intros H. now rewrite (IH H).
Qed.

End Split.

(** On a data URL ["<prefix>,<payload>"] the second piece is the payload. *)
Lemma second_piece_of_data_url (prefix payload : string) :
  free_of "," prefix = true ->
  free_of "," payload = true ->
  index (split "," (prefix ++ String "," payload)%string) 1 = Some payload.
Proof.
  intros Hp Hq. rewrite split_at_first by assumption.
  now rewrite (split_free _ _ Hq).
Qed.

(** The canvas always yields a string with a second piece, so
    [handleCapture] never stores [undefined]. *)
Lemma toDataURL_second_piece (f : VideoFrame) :
  exists piece, index (split "," (toDataURL f)) 1 = Some piece.
Proof.
  unfold toDataURL.
  destruct (Nat.eqb (videoWidth f) 0 || Nat.eqb (videoHeight f) 0).
  - now exists ""%string.
  - change ("data:image/jpeg;base64," ++ jpeg f)%string
      with ("data:image/jpeg;base64" ++ String "," (jpeg f))%string.
    rewrite split_at_first by reflexivity.
    destruct (split "," (jpeg f)) as [|piece pieces] eqn:E.
    + now apply split_not_nil in E.
    + now exists piece.
Qed.

(** C10.  [fileToBase64] either resolves with a non-empty string or
    rejects; it never resolves with the empty string, and a read result
    with nothing in second position after splitting at the comma (no
    second piece, or an empty one) rejects the promise. *)
Theorem fileToBase64_nonempty_or_rejected
    {File : Type} (readAsDataURL : File -> ReadOutcome) (file : File) :
  ((exists base64Data,
       fileToBase64 readAsDataURL file = Fulfilled base64Data /\ base64Data <> ""%string)
   \/ (exists err, fileToBase64 readAsDataURL file = Rejected err))
  /\ fileToBase64 readAsDataURL file <> Fulfilled ""%string
  /\ (forall result,
         readAsDataURL file = Loaded result ->
         index (split "," result) 1 = None \/ index (split "," result) 1 = Some ""%string ->
         fileToBase64 readAsDataURL file = Rejected ReadFailure).
Proof.
  unfold fileToBase64.
  destruct (readAsDataURL file) as [result|event].
  - destruct (index (split "," result) 1) as [[|c piece]|] eqn:E; cbn [truthy].
    + split; [right; eauto|]. split; [discriminate|]. reflexivity.
    + split; [left; eexists; split; [reflexivity|discriminate]|].
      split; [discriminate|].
      intros r Hr H. injection Hr as Hr. subst r.
      destruct H as [H|H]; rewrite E in H; discriminate.
    + split; [right; eauto|]. split; [discriminate|]. reflexivity.
  - split; [right; eauto|]. split; [discriminate|]. discriminate.
Qed.

Lemma fileToBase64_nonempty_or_rejected_witness :
  fileToBase64 (fun _ : string => Loaded "data:image/png;base64,") "blank.png"
  = Rejected ReadFailure.
Proof.
  apply (proj2 (proj2 (fileToBase64_nonempty_or_rejected
                         (fun _ : string => Loaded "data:image/png;base64,") "blank.png"))
           "data:image/png;base64,"%string eq_refl (or_intror eq_refl)).
Defined.

Example fileToBase64_png :
  fileToBase64 (fun _ : string => Loaded "data:image/png;base64,iVBORw0KGgo=") "dot.png"
  = Fulfilled "iVBORw0KGgo="%string.
Proof. reflexivity. Qed.

Example fileToBase64_no_comma :
  fileToBase64 (fun _ : string => Loaded "data:") "empty.bin" = Rejected ReadFailure.
Proof. reflexivity. Qed.

Example fileToBase64_read_error :
  fileToBase64 (fun _ : string => ReadError "NotReadableError") "gone.png"
  = Rejected (OtherValue "NotReadableError").
Proof. reflexivity. Qed.

(** ** The session controller *)

(** React's commit touches neither the six state cells nor the pending
    promises nor the console. *)
Lemma commit_keeps (was : bool) (w : World) :
  session (commit was w) = session w /\
  next_ticket (commit was w) = next_ticket w /\
  inflight (commit was w) = inflight w /\
  reading (commit was w) = reading w /\
  console (commit was w) = console w.
Proof.
  unfold commit. destruct (Bool.eqb was (isCameraOn (session w)));
    repeat split; reflexivity.
Qed.

Lemma session_step (e : Event) (w : World) :
  session (step e w) = session (handle e w).
Proof. apply commit_keeps. Qed.

Lemma inflight_step (e : Event) (w : World) :
  inflight (step e w) = inflight (handle e w).
Proof. apply commit_keeps. Qed.

Lemma next_ticket_step (e : Event) (w : World) :
  next_ticket (step e w) = next_ticket (handle e w).
Proof. apply commit_keeps. Qed.

Lemma reading_step (e : Event) (w : World) :
  reading (step e w) = reading (handle e w).
Proof. apply commit_keeps. Qed.

Lemma console_step (e : Event) (w : World) :
  console (step e w) = console (handle e w).
Proof. apply commit_keeps. Qed.

Lemma exec_snoc (history : list Event) (e : Event) :
  exec (history ++ [e]) = step e (exec history).
Proof. unfold exec, exec_from. now rewrite fold_left_app. Qed.

(** *** Tickets *)

Lemma Forall_lt_weaken {A} (f : A -> nat) (n m : nat) (l : list A) :
  n <= m -> Forall (fun p => f p < n) l -> Forall (fun p => f p < m) l.
Proof.
  intros Hnm H. induction H; constructor; [lia|assumption].
Qed.

Lemma Forall_filter {A} (P : A -> Prop) (keep : A -> bool) (l : list A) :
  Forall P l -> Forall P (filter keep l).
Proof.
  intros H. induction H; simpl; [constructor|].
  destruct (keep x); [constructor|]; assumption.
Qed.

Lemma handle_tickets_fresh (e : Event) (w : World) :
  tickets_fresh w -> tickets_fresh (handle e w).
Proof.
  intros [He Hr]. unfold tickets_fresh.
  destruct e; simpl; try (split; assumption).
  - (* getUserMedia settles *)
    unfold getUserMedia_settled.
    destruct (existsb _ _); [|split; assumption].
    destruct answer; split; assumption.
  - (* capture *)
    unfold handleCapture.
    destruct (isCameraOn _); [|split; assumption].
    destruct frame; split; assumption.
  - (* file chosen *)
    destruct file as [f|]; simpl; [|split; assumption].
    split.
    + eapply Forall_lt_weaken; [|exact He]. lia.
    + apply Forall_app. split.
      * eapply Forall_lt_weaken; [|exact Hr]. lia.
      * repeat constructor.
  - (* file read *)
    unfold read_settled.
    destruct (find _ _); [|split; assumption].
    unfold handleFileChange_resume.
    destruct (fileToBase64 _ _); simpl; (split; [assumption|now apply Forall_filter]).
  - (* scene *)
    unfold selectScene. destruct (index _ _); split; assumption.
  - (* generate *)
    unfold handleGenerate.
    destruct (userImage _); [destruct (selectedScene _)|]; simpl;
      try (split; assumption).
    split.
    + apply Forall_app. split.
      * eapply Forall_lt_weaken; [|exact He]. lia.
      * repeat constructor.
    + eapply Forall_lt_weaken; [|exact Hr]. lia.
  - (* remote settles *)
    unfold remote_settled.
    destruct (find _ _); [|split; assumption].
    unfold handleGenerate_resume.
    destruct (editImage _ _ _ _); simpl; (split; [now apply Forall_filter|assumption]).
Qed.

Lemma step_tickets_fresh (e : Event) (w : World) :
  tickets_fresh w -> tickets_fresh (step e w).
Proof.
  intros H. apply (handle_tickets_fresh e) in H.
  unfold tickets_fresh, step in *.
  destruct (commit_keeps (isCameraOn (session w)) (handle e w)) as (_ & -> & -> & -> & _).
  exact H.
Qed.

Lemma exec_tickets_fresh (history : list Event) : tickets_fresh (exec history).
Proof.
  induction history as [|e history IH] using rev_ind.
  - split; constructor.
  - rewrite exec_snoc. now apply step_tickets_fresh.
Qed.

(** A newly created promise is the one its ticket finds. *)
Lemma find_new_edit (w : World) (p : PendingEdit) :
  tickets_fresh w ->
  edit_ticket p = next_ticket w ->
  find (has_edit (next_ticket w)) (inflight w ++ [p]) = Some p.
Proof.
  intros [He _] Hp. induction He as [|q l Hq _ IH]; simpl.
  - unfold has_edit. rewrite Hp, Nat.eqb_refl. reflexivity.
  - unfold has_edit at 1. destruct (Nat.eqb_spec (edit_ticket q) (next_ticket w)); [lia|].
    exact IH.
Qed.

Lemma find_new_read (w : World) (p : PendingRead) :
  tickets_fresh w ->
  read_ticket p = next_ticket w ->
  find (has_read (next_ticket w)) (reading w ++ [p]) = Some p.
Proof.
  intros [_ Hr] Hp. induction Hr as [|q l Hq _ IH]; simpl.
  - unfold has_read. rewrite Hp, Nat.eqb_refl. reflexivity.
  - unfold has_read at 1. destruct (Nat.eqb_spec (read_ticket q) (next_ticket w)); [lia|].
    exact IH.
Qed.

(** *** The generate action *)

(** The promise [handleGenerate] creates in [w] for [photo] and [scene]. *)
Lemma generate_accepted (w : World) (photo : UserImage) (scene : Scene) :
  userImage (session w) = Some photo ->
  selectedScene (session w) = Some scene ->
  session (step EvGenerate w)
  = setGeneratedImage None (setError None (setIsLoading true (session w))) /\
  inflight (step EvGenerate w)
  = inflight w ++ [ {| edit_ticket := next_ticket w; edit_userImage := photo;
                       edit_scene := scene; edit_prompt := prompt_for scene |} ] /\
  next_ticket (step EvGenerate w) = S (next_ticket w) /\
  console (step EvGenerate w) = console w.
Proof.
  intros Hp Hs.
  rewrite session_step, inflight_step, next_ticket_step, console_step.
  simpl. unfold handleGenerate. rewrite Hp, Hs. simpl. auto.
Qed.

Lemma filter_drops_new_edit (w : World) (p : PendingEdit) :
  tickets_fresh w ->
  edit_ticket p = next_ticket w ->
  filter (fun q => negb (has_edit (next_ticket w) q)) (inflight w ++ [p]) = inflight w.
Proof.
  intros [He _] Hp. rewrite filter_app. simpl.
  unfold has_edit at 2. rewrite Hp, Nat.eqb_refl. simpl. rewrite app_nil_r.
  induction He as [|q l Hq _ IH]; simpl; [reflexivity|].
  unfold has_edit at 1. destruct (Nat.eqb_spec (edit_ticket q) (next_ticket w)); [lia|].
  simpl. now rewrite IH.
Qed.

(** The session once the promise just created has settled. *)
Lemma generate_settled (w : World) (photo : UserImage) (scene : Scene)
    (remote : Settled GenerateContentResponse) :
  tickets_fresh w ->
  userImage (session w) = Some photo ->
  selectedScene (session w) = Some scene ->
  let pending := session (step EvGenerate w) in
  let after := step (EvRemote (next_ticket w) remote) (step EvGenerate w) in
  session after
  = setIsLoading false
      match editImage (fun _ => remote) (base64 photo) (mimeType photo) (prompt_for scene) with
      | Fulfilled Q => setGeneratedImage (Some (edited photo Q)) pending
      | Rejected err => setError (Some (describe err)) pending
      end
  /\ inflight after = inflight w.
Proof.
  intros Hfresh Hp Hs pending after. subst pending after.
  destruct (generate_accepted w photo scene Hp Hs) as (Hsess & Hin & Hnext & Hcon).
  rewrite (session_step (EvRemote _ _)), (inflight_step (EvRemote _ _)).
  simpl. unfold remote_settled. rewrite Hin.
  rewrite find_new_edit by (assumption || reflexivity).
  rewrite filter_drops_new_edit by (assumption || reflexivity).
  cbn [edit_userImage edit_prompt].
  unfold handleGenerate_resume.
  destruct (editImage _ _ _ _); simpl; rewrite Hsess; auto.
Qed.

(** C3.  With the photo or the scene absent, the generate action only
    sets the validation message: the handler changes nothing else, so
    after the step [generatedImage] and [isLoading] are what they were (an
    unset result stays unset, pending stays false) and no promise for a
    remote call has been created. *)
Theorem generate_rejected_without_photo_or_scene (w : World) :
  userImage (session w) = None \/ selectedScene (session w) = None ->
  handle EvGenerate w = with_session (setError (Some validation_failed)) w /\
  session (step EvGenerate w) = setError (Some validation_failed) (session w) /\
  generatedImage (session (step EvGenerate w)) = generatedImage (session w) /\
  isLoading (session (step EvGenerate w)) = isLoading (session w) /\
  inflight (step EvGenerate w) = inflight w /\
  next_ticket (step EvGenerate w) = next_ticket w.
Proof.
  intros H.
  assert (Hh : handle EvGenerate w = with_session (setError (Some validation_failed)) w).
  { simpl. unfold handleGenerate.
    destruct H as [-> | H]; [reflexivity|].
    rewrite H. now destruct (userImage (session w)). }
  rewrite session_step, inflight_step, next_ticket_step, Hh. simpl. auto 6.
Qed.

(** C8.  The instruction text of the request is the fixed template with
    the selected scene's [promptFragment] put in; it depends on nothing
    but the scene, so two generate actions with the same scene send the
    same text. *)
Theorem instruction_text_from_template
    (w1 w2 : World) (photo1 photo2 : UserImage) (scene : Scene) :
  userImage (session w1) = Some photo1 -> selectedScene (session w1) = Some scene ->
  userImage (session w2) = Some photo2 -> selectedScene (session w2) = Some scene ->
  exists p1 p2 text,
    inflight (step EvGenerate w1) = inflight w1 ++ [p1] /\
    inflight (step EvGenerate w2) = inflight w2 ++ [p2] /\
    text
    = ("Take the person in the provided photo and seamlessly place them into a new scene. The scene should be: "
       ++ promptFragment scene
       ++ ". The final image should look like a vintage photograph, matching the historical era in style, lighting, and color tone.")%string /\
    contents (edit_request p1)
    = [ {| text := None;
           inlineData := Some {| data := base64 photo1; blobMimeType := mimeType photo1 |} |};
        {| text := Some text; inlineData := None |} ] /\
    contents (edit_request p2)
    = [ {| text := None;
           inlineData := Some {| data := base64 photo2; blobMimeType := mimeType photo2 |} |};
        {| text := Some text; inlineData := None |} ].
Proof.
  intros Hp1 Hs1 Hp2 Hs2.
  destruct (generate_accepted w1 photo1 scene Hp1 Hs1) as (_ & H1 & _).
  destruct (generate_accepted w2 photo2 scene Hp2 Hs2) as (_ & H2 & _).
  do 3 eexists. split; [exact H1|]. split; [exact H2|].
  split; [reflexivity|]. split; reflexivity.
Qed.

Lemma generate_rejected_without_photo_or_scene_witness :
  handle EvGenerate boot = with_session (setError (Some validation_failed)) boot /\
  session (step EvGenerate boot) = setError (Some validation_failed) (session boot) /\
  generatedImage (session (step EvGenerate boot)) = generatedImage (session boot) /\
  isLoading (session (step EvGenerate boot)) = isLoading (session boot) /\
  inflight (step EvGenerate boot) = inflight boot /\
  next_ticket (step EvGenerate boot) = next_ticket boot.
Proof.
  apply (generate_rejected_without_photo_or_scene boot (or_introl eq_refl)).
Defined.

(** A photo without a scene: still rejected, the photo untouched. *)
Example generate_without_scene :
  session (step EvGenerate
             (exec [EvFileChange (Some Sample.portrait); EvFileRead 0 Sample.portrait_read]))
  = {| userImage := Some Sample.photo; selectedScene := None; generatedImage := None;
       isLoading := false; error := Some "Please provide a photo and select a scene.";
       isCameraOn := false |}.
Proof. reflexivity. Qed.

Lemma instruction_text_from_template_witness :
  exists p1 p2 text,
    inflight (step EvGenerate (exec Sample.scene_picked))
    = inflight (exec Sample.scene_picked) ++ [p1] /\
    inflight (step EvGenerate (exec Sample.snapshot_picked))
    = inflight (exec Sample.snapshot_picked) ++ [p2] /\
    text
    = ("Take the person in the provided photo and seamlessly place them into a new scene. The scene should be: "
       ++ promptFragment Sample.rome
       ++ ". The final image should look like a vintage photograph, matching the historical era in style, lighting, and color tone.")%string /\
    contents (edit_request p1)
    = [ {| text := None;
           inlineData := Some {| data := base64 Sample.photo;
                                 blobMimeType := mimeType Sample.photo |} |};
        {| text := Some text; inlineData := None |} ] /\
    contents (edit_request p2)
    = [ {| text := None;
           inlineData := Some {| data := base64 Sample.snapshot;
                                 blobMimeType := mimeType Sample.snapshot |} |};
        {| text := Some text; inlineData := None |} ].
Proof.
  apply (instruction_text_from_template
           (exec Sample.scene_picked) (exec Sample.snapshot_picked)
           Sample.photo Sample.snapshot Sample.rome
           eq_refl eq_refl eq_refl eq_refl).
Defined.

Example scene_picked_state :
  userImage (session (exec Sample.scene_picked)) = Some Sample.photo /\
  selectedScene (session (exec Sample.scene_picked)) = Some Sample.rome /\
  offered_from boot (Sample.scene_picked ++ [EvGenerate]) = true.
Proof. repeat split. Qed.

(** C4.  A generate action with photo and scene present enters Pending
    ([isLoading] true, [error] and [generatedImage] cleared); when the
    call then resolves with [Q], the session is ResultReady: the result is
    set, its encoded data is [Q], and [isLoading] is false. *)
Theorem generate_then_success
    (history : list Event) (photo : UserImage) (scene : Scene)
    (remote : Settled GenerateContentResponse) (Q : string) :
  let w := exec history in
  userImage (session w) = Some photo ->
  selectedScene (session w) = Some scene ->
  editImage (fun _ => remote) (base64 photo) (mimeType photo) (prompt_for scene)
  = Fulfilled Q ->
  let pending := step EvGenerate w in
  let ready := step (EvRemote (next_ticket w) remote) pending in
  Pending (session pending) /\
  exists result,
    ResultReady (session ready) result /\ base64 result = Q /\ error (session ready) = None.
Proof.
  intros w Hp Hs HQ pending ready.
  destruct (generate_accepted w photo scene Hp Hs) as (Hsess & _).
  destruct (generate_settled w photo scene remote (exec_tickets_fresh history) Hp Hs)
    as (Hready & _).
  fold pending in Hsess, Hready. fold ready in Hready. rewrite HQ in Hready.
  split.
  - rewrite Hsess. repeat split.
  - exists (edited photo Q). rewrite Hready, Hsess. repeat split.
Qed.

Lemma generate_then_success_witness :
  Pending (session (step EvGenerate (exec Sample.scene_picked))) /\
  exists result,
    ResultReady
      (session (step (EvRemote 1 (Fulfilled Sample.captioned))
                  (step EvGenerate (exec Sample.scene_picked))))
      result
    /\ base64 result = "UQ=="%string
    /\ error (session (step (EvRemote 1 (Fulfilled Sample.captioned))
                         (step EvGenerate (exec Sample.scene_picked)))) = None.
Proof.
  apply (generate_then_success Sample.scene_picked Sample.photo Sample.rome
           (Fulfilled Sample.captioned) "UQ==" eq_refl eq_refl eq_refl).
Defined.

Lemma describe_not_empty (err : Thrown) : describe err <> ""%string.
Proof. destruct err; discriminate. Qed.

(** After a reset, uploading a readable file, picking a scene and
    generating puts a new call in flight, whatever happened before. *)
Lemma retry_after_reset (w : World) (file : File) (read : ReadOutcome)
    (b : string) (k : nat) (scene : Scene) :
  tickets_fresh w ->
  fileToBase64 (fun _ => read) file = Fulfilled b ->
  index HISTORICAL_SCENES k = Some scene ->
  let again :=
    exec_from w [EvReset; EvFileChange (Some file); EvFileRead (next_ticket w) read;
                 EvSelectScene k; EvGenerate] in
  Pending (session again) /\
  inflight again
  = inflight w ++
    [ {| edit_ticket := S (next_ticket w);
         edit_userImage := {| base64 := b; url := objectURL file; mimeType := type file |};
         edit_scene := scene; edit_prompt := prompt_for scene |} ].
Proof.
  intros Hfresh Hread Hscene. simpl.
  set (w1 := step EvReset w).
  assert (F1 : tickets_fresh w1) by now apply step_tickets_fresh.
  assert (N1 : next_ticket w1 = next_ticket w) by (unfold w1; now rewrite next_ticket_step).
  assert (R1 : reading w1 = reading w) by (unfold w1; now rewrite reading_step).
  assert (I1 : inflight w1 = inflight w) by (unfold w1; now rewrite inflight_step).
  set (w2 := step (EvFileChange (Some file)) w1).
  assert (F2 : tickets_fresh w2) by now apply step_tickets_fresh.
  assert (N2 : next_ticket w2 = S (next_ticket w))
    by (unfold w2; rewrite next_ticket_step; simpl; now rewrite N1).
  assert (R2 : reading w2
               = reading w1 ++ [ {| read_ticket := next_ticket w1; read_file := file |} ])
    by (unfold w2; now rewrite reading_step).
  assert (I2 : inflight w2 = inflight w) by (unfold w2; now rewrite inflight_step).
  set (w3 := step (EvFileRead (next_ticket w) read) w2).
  assert (F3 : tickets_fresh w3) by now apply step_tickets_fresh.
  assert (H3 : handle (EvFileRead (next_ticket w) read) w2
               = handleFileChange_resume file (Fulfilled b)
                   (set_reading
                      (filter (fun q => negb (has_read (next_ticket w) q)) (reading w2)) w2)).
  { simpl. unfold read_settled. rewrite R2, <- N1.
    rewrite find_new_read by (assumption || reflexivity).
    cbn [read_file]. now rewrite Hread. }
  assert (U3 : userImage (session w3)
               = Some {| base64 := b; url := objectURL file; mimeType := type file |})
    by (unfold w3; now rewrite session_step, H3).
  assert (N3 : next_ticket w3 = S (next_ticket w))
    by (unfold w3; now rewrite next_ticket_step, H3).
  assert (I3 : inflight w3 = inflight w)
    by (unfold w3; now rewrite inflight_step, H3).
  set (w4 := step (EvSelectScene k) w3).
  assert (F4 : tickets_fresh w4) by now apply step_tickets_fresh.
  assert (H4 : handle (EvSelectScene k) w3 = with_session (setSelectedScene (Some scene)) w3)
    by (simpl; unfold selectScene; now rewrite Hscene).
  assert (U4 : userImage (session w4)
               = Some {| base64 := b; url := objectURL file; mimeType := type file |})
    by (unfold w4; now rewrite session_step, H4).
  assert (S4 : selectedScene (session w4) = Some scene)
    by (unfold w4; now rewrite session_step, H4).
  assert (N4 : next_ticket w4 = S (next_ticket w))
    by (unfold w4; now rewrite next_ticket_step, H4).
  assert (I4 : inflight w4 = inflight w)
    by (unfold w4; now rewrite inflight_step, H4).
  destruct (generate_accepted w4 _ _ U4 S4) as (Hsess & Hin & _).
  rewrite Hsess, Hin, N4, I4. repeat split.
Qed.

(** C5.  A generate action whose call rejects ends in ResultError: a
    non-empty message in [error], [generatedImage] still unset,
    [isLoading] false.  The component goes on: a reset returns to Idle,
    and a new upload, scene and generate action put a new call in
    flight. *)
Theorem generate_then_failure
    (history : list Event) (photo : UserImage) (scene : Scene)
    (remote : Settled GenerateContentResponse) (err : Thrown) :
  let w := exec history in
  userImage (session w) = Some photo ->
  selectedScene (session w) = Some scene ->
  editImage (fun _ => remote) (base64 photo) (mimeType photo) (prompt_for scene)
  = Rejected err ->
  let pending := step EvGenerate w in
  let failed := step (EvRemote (next_ticket w) remote) pending in
  Pending (session pending) /\
  ResultError (session failed) (describe err) /\
  Idle (session (step EvReset failed)) /\
  forall file read b k scene',
    fileToBase64 (fun _ => read) file = Fulfilled b ->
    index HISTORICAL_SCENES k = Some scene' ->
    let again :=
      exec_from failed
        [EvReset; EvFileChange (Some file); EvFileRead (next_ticket failed) read;
         EvSelectScene k; EvGenerate] in
    Pending (session again) /\
    exists p, In p (inflight again) /\
              edit_userImage p
              = {| base64 := b; url := objectURL file; mimeType := type file |} /\
              edit_scene p = scene'.
Proof.
  intros w Hp Hs Herr pending failed.
  destruct (generate_accepted w photo scene Hp Hs) as (Hsess & _).
  destruct (generate_settled w photo scene remote (exec_tickets_fresh history) Hp Hs)
    as (Hfailed & _).
  fold pending in Hsess, Hfailed. fold failed in Hfailed. rewrite Herr in Hfailed.
  split; [rewrite Hsess; repeat split|].
  split.
  { rewrite Hfailed, Hsess. repeat split. apply describe_not_empty. }
  split; [now rewrite session_step|].
  intros file read b k scene' Hread Hscene.
  assert (Hfresh : tickets_fresh failed)
    by (unfold failed, pending; do 2 apply step_tickets_fresh; apply exec_tickets_fresh).
  destruct (retry_after_reset failed file read b k scene' Hfresh Hread Hscene) as (HP & Hin).
  split; [exact HP|].
  eexists. split; [rewrite Hin; apply in_or_app; right; left; reflexivity|].
  split; reflexivity.
Qed.

Lemma generate_then_failure_witness :
  ResultError
    (session (step (EvRemote 1 (Rejected Sample.denied))
                (step EvGenerate (exec Sample.scene_picked))))
    "An error occurred: API key not valid"
  /\ Idle (session (step EvReset
                      (step (EvRemote 1 (Rejected Sample.denied))
                         (step EvGenerate (exec Sample.scene_picked)))))
  /\ Pending
       (session
          (exec_from
             (step (EvRemote 1 (Rejected Sample.denied))
                (step EvGenerate (exec Sample.scene_picked)))
             [EvReset; EvFileChange (Some Sample.portrait);
              EvFileRead 2 Sample.portrait_read; EvSelectScene 0; EvGenerate])).
Proof.
  pose proof (generate_then_failure Sample.scene_picked Sample.photo Sample.rome
                (Rejected Sample.denied) Sample.denied eq_refl eq_refl eq_refl)
    as (_ & Herror & Hidle & Hretry).
  split; [exact Herror|]. split; [exact Hidle|].
  exact (proj1 (Hretry Sample.portrait Sample.portrait_read "cGhvdG8="%string 0
                  Sample.rome eq_refl eq_refl)).
Defined.

(** C9.  On success the stored result takes its media type from the
    photo the closure captured, and its URL is the data URL built from
    that media type and the returned data; the media type of the
    response's image part appears nowhere in it. *)
Theorem result_media_type_from_photo
    (history : list Event) (photo : UserImage) (scene : Scene)
    (response : GenerateContentResponse)
    (before after : list Part) (part : Part) (blob : Blob) :
  let w := exec history in
  userImage (session w) = Some photo ->
  selectedScene (session w) = Some scene ->
  response_parts response = inr (before ++ part :: after) ->
  existsb carries_image before = false ->
  inlineData part = Some blob ->
  generatedImage
    (session (step (EvRemote (next_ticket w) (Fulfilled response)) (step EvGenerate w)))
  = Some {| base64 := data blob;
            url := ("data:" ++ mimeType photo ++ ";base64," ++ data blob)%string;
            mimeType := mimeType photo |}.
Proof.
  intros w Hp Hs Hparts Hbefore Hblob.
  destruct (generate_settled w photo scene (Fulfilled response)
              (exec_tickets_fresh history) Hp Hs) as (Hready & _).
  rewrite Hready.
  unfold editImage, editImage_resume. rewrite Hparts.
  rewrite scan_parts_skip by assumption. simpl. rewrite Hblob. reflexivity.
Qed.

Lemma result_media_type_from_photo_witness :
  generatedImage
    (session (step (EvRemote 1 (Fulfilled Sample.captioned))
                (step EvGenerate (exec Sample.scene_picked))))
  = Some {| base64 := "UQ=="; url := "data:image/png;base64,UQ=="; mimeType := "image/png" |}.
Proof.
  apply (result_media_type_from_photo Sample.scene_picked Sample.photo Sample.rome
           Sample.captioned [Sample.caption] [] Sample.picture
           {| data := "UQ=="; blobMimeType := "image/webp" |}
           eq_refl eq_refl eq_refl eq_refl eq_refl).
Defined.

(** *** Where a result comes from *)

(** A handler adds a promise to [inflight] only in [handleGenerate], for
    the photo and scene of the state it runs in. *)
Lemma inflight_handle_inv (e : Event) (w : World) (p : PendingEdit) :
  In p (inflight (handle e w)) ->
  In p (inflight w) \/
  (e = EvGenerate /\
   userImage (session w) = Some (edit_userImage p) /\
   selectedScene (session w) = Some (edit_scene p) /\
   edit_ticket p = next_ticket w /\
   edit_prompt p = prompt_for (edit_scene p)).
Proof.
  destruct e; simpl; auto.
  - unfold getUserMedia_settled.
    destruct (existsb _ _); [destruct answer|]; auto.
  - unfold handleCapture.
    destruct (isCameraOn _); [destruct frame|]; auto.
  - destruct file; auto.
  - unfold read_settled. destruct (find _ _); auto.
    unfold handleFileChange_resume. destruct (fileToBase64 _ _); auto.
  - unfold selectScene. destruct (index _ _); auto.
  - unfold handleGenerate.
    destruct (userImage (session w)) as [photo|] eqn:Hp; auto.
    destruct (selectedScene (session w)) as [scene|] eqn:Hs; auto.
    simpl. intros H. apply in_app_or in H as [H|[<-|[]]]; auto.
    right. simpl. auto.
  - unfold remote_settled. destruct (find _ _); auto.
    unfold handleGenerate_resume. destruct (editImage _ _ _ _); simpl;
      intros H; apply filter_In in H; left; apply H.
Qed.

(** A handler sets [generatedImage] only in the resumption of
    [handleGenerate], from the data [editImage] resolved with and the
    photo its closure holds. *)
Lemma generatedImage_handle_inv (e : Event) (w : World) (result : UserImage) :
  generatedImage (session (handle e w)) = Some result ->
  generatedImage (session w) = Some result \/
  exists ticket remote p Q,
    e = EvRemote ticket remote /\
    find (has_edit ticket) (inflight w) = Some p /\
    editImage (fun _ => remote) (base64 (edit_userImage p)) (mimeType (edit_userImage p))
      (edit_prompt p) = Fulfilled Q /\
    result = edited (edit_userImage p) Q.
Proof.
  destruct e; simpl; auto.
  - unfold getUserMedia_settled.
    destruct (existsb _ _); [destruct answer|]; auto.
  - unfold handleCapture.
    destruct (isCameraOn _); [destruct frame|]; auto.
  - destruct file; auto.
  - unfold read_settled. destruct (find _ _); auto.
    unfold handleFileChange_resume. destruct (fileToBase64 _ _); auto.
  - unfold selectScene. destruct (index _ _); auto.
  - unfold handleGenerate.
    destruct (userImage (session w)); auto.
    destruct (selectedScene (session w)); auto.
    simpl. discriminate.
  - unfold remote_settled.
    destruct (find (has_edit ticket) (inflight w)) as [p|] eqn:Hfind; auto.
    unfold handleGenerate_resume.
    destruct (editImage _ _ _ _) as [Q|err] eqn:HQ; simpl; auto.
    intros H. injection H as <-. right. exists ticket, remote, p, Q. auto.
  - discriminate.
Qed.

(** Every promise in flight was created by a generate action earlier in
    the history, for the photo and scene current at that moment. *)
Lemma inflight_issued (history : list Event) (p : PendingEdit) :
  In p (inflight (exec history)) ->
  exists before between,
    history = before ++ EvGenerate :: between /\
    userImage (session (exec before)) = Some (edit_userImage p) /\
    selectedScene (session (exec before)) = Some (edit_scene p) /\
    edit_ticket p = next_ticket (exec before) /\
    edit_prompt p = prompt_for (edit_scene p).
Proof.
  induction history as [|e history IH] using rev_ind.
  - intros [].
  - rewrite exec_snoc, inflight_step. intros H.
    apply inflight_handle_inv in H as [H|(-> & Hp & Hs & Ht & Hprompt)].
    + destruct (IH H) as (before & between & -> & Hrest).
      exists before, (between ++ [e]). split; [|exact Hrest].
      now rewrite <- app_assoc.
    + exists history, []. auto.
Qed.

(** Whatever the state, a call in flight that resolves stores its result. *)
Lemma settle_applies (w : World) (ticket : nat) (p : PendingEdit)
    (remote : Settled GenerateContentResponse) (Q : string) :
  find (has_edit ticket) (inflight w) = Some p ->
  editImage (fun _ => remote) (base64 (edit_userImage p)) (mimeType (edit_userImage p))
    (edit_prompt p) = Fulfilled Q ->
  generatedImage (session (step (EvRemote ticket remote) w))
  = Some (edited (edit_userImage p) Q).
Proof.
  intros Hfind HQ. rewrite session_step. simpl. unfold remote_settled.
  rewrite Hfind. now rewrite HQ.
Qed.

(** The history of the race: a reset while the call is in flight, the
    response arriving afterwards.  Every event is one the page offers. *)
Example stale_result_after_reset :
  let history := Sample.scene_picked ++ [EvGenerate; EvReset] in
  let late := EvRemote 1 (Fulfilled Sample.captioned) in
  offered_from boot (history ++ [late]) = true /\
  session (exec history) = initial /\
  session (step late (exec history))
  = {| userImage := None; selectedScene := None;
       generatedImage :=
         Some {| base64 := "UQ=="; url := "data:image/png;base64,UQ==";
                 mimeType := "image/png" |};
       isLoading := false; error := None; isCameraOn := false |}.
Proof. repeat split. Qed.

(** C6, as stated, fails: a reset does not invalidate the call in
    flight; its response is stored when it arrives. *)
Lemma reset_does_not_invalidate_inflight : ~ reset_invalidates_inflight.
Proof.
  intros H.
  specialize (H (Sample.scene_picked ++ [EvGenerate]) 1 (Fulfilled Sample.captioned)).
  vm_compute in H. discriminate.
Qed.

(** C6, amended.  In every reachable state a populated result comes from
    an [editImage] call that resolved, issued by a generate action for the
    photo and scene current at that moment: the result carries the data
    the call resolved with and that photo's media type.  Nothing
    invalidates a call in flight: after a reset or a capture, its response
    is stored all the same when it resolves. *)
Theorem result_from_resolved_call_never_invalidated :
  (forall (history : list Event) (result : UserImage),
      generatedImage (session (exec history)) = Some result ->
      exists before between after ticket remote photo scene Q,
        history = before ++ EvGenerate :: between ++ EvRemote ticket remote :: after /\
        userImage (session (exec before)) = Some photo /\
        selectedScene (session (exec before)) = Some scene /\
        ticket = next_ticket (exec before) /\
        editImage (fun _ => remote) (base64 photo) (mimeType photo) (prompt_for scene)
        = Fulfilled Q /\
        result = edited photo Q)
  /\
  (forall (w : World) (e : Event) (ticket : nat) (p : PendingEdit)
          (remote : Settled GenerateContentResponse) (Q : string),
      find (has_edit ticket) (inflight w) = Some p ->
      e = EvReset \/ (exists frame, e = EvCapture frame) ->
      editImage (fun _ => remote) (base64 (edit_userImage p)) (mimeType (edit_userImage p))
        (edit_prompt p) = Fulfilled Q ->
      generatedImage (session (step (EvRemote ticket remote) (step e w)))
      = Some (edited (edit_userImage p) Q)).
Proof.
  split.
  - induction history as [|e history IH] using rev_ind.
    + discriminate.
    + intros result. rewrite exec_snoc, session_step. intros H.
      apply generatedImage_handle_inv in H
        as [H|(ticket & remote & p & Q & -> & Hfind & HQ & ->)].
      * destruct (IH result H)
          as (before & between & after & ticket & remote & photo & scene & Q & -> & Hrest).
        exists before, between, (after ++ [e]), ticket, remote, photo, scene, Q.
        split; [|exact Hrest].
        rewrite <- !app_assoc. simpl. rewrite <- !app_assoc. reflexivity.
      * apply find_some in Hfind as (Hin & Hticket).
        destruct (inflight_issued history p Hin)
          as (before & between & -> & Hp & Hs & Ht & Hprompt).
        exists before, between, [], ticket, remote, (edit_userImage p), (edit_scene p), Q.
        unfold has_edit in Hticket. apply Nat.eqb_eq in Hticket.
        rewrite <- Hprompt.
        repeat split; try assumption; try congruence.
        now rewrite <- !app_assoc.
  - intros w e ticket p remote Q Hfind He HQ.
    apply settle_applies; [|exact HQ].
    rewrite inflight_step.
    destruct He as [-> | (frame & ->)]; simpl; [exact Hfind|].
    unfold handleCapture.
    destruct (isCameraOn (session w)); [destruct frame|]; exact Hfind.
Qed.

Lemma result_from_resolved_call_never_invalidated_witness :
  generatedImage
    (session (step (EvRemote 1 (Fulfilled Sample.captioned))
                (step EvReset (exec (Sample.scene_picked ++ [EvGenerate])))))
  = Some (edited Sample.photo "UQ==").
Proof.
  apply (proj2 result_from_resolved_call_never_invalidated
           (exec (Sample.scene_picked ++ [EvGenerate])) EvReset 1
           {| edit_ticket := 1; edit_userImage := Sample.photo;
              edit_scene := Sample.rome; edit_prompt := prompt_for Sample.rome |}
           (Fulfilled Sample.captioned) "UQ=="%string
           eq_refl (or_introl eq_refl) eq_refl).
Defined.

(** ** The camera *)

Lemma length_update {A} (i : nat) (f : A -> A) (xs : list A) :
  length (update i f xs) = length xs.
Proof.
  revert i. induction xs as [|x xs IH]; intros [|i]; simpl; auto.
Qed.

Lemma index_update_same {A} (i : nat) (f : A -> A) (xs : list A) :
  index (update i f xs) i = option_map f (index xs i).
Proof.
  unfold index. revert i. induction xs as [|x xs IH]; intros [|i]; simpl; auto.
Qed.

Lemma index_update_other {A} (i j : nat) (f : A -> A) (xs : list A) :
  i <> j -> index (update i f xs) j = index xs j.
Proof.
  unfold index. revert i j.
  induction xs as [|x xs IH]; intros [|i] [|j] H; simpl; auto; congruence.
Qed.

Lemma stop_all_ended (ms : MediaStream) : all_ended (map stop ms).
Proof. induction ms; constructor; auto. Qed.

(** Apart from the device's answer, no handler touches the streams or the
    effect's variables. *)
Lemma handle_keeps_camera (e : Event) (w : World) :
  (exists run answer, e = EvDevice run answer) \/
  (acquiring (handle e w) = acquiring w /\
   effect_run (handle e w) = effect_run w /\
   effect_stream (handle e w) = effect_stream w /\
   streams (handle e w) = streams w).
Proof.
  destruct e; simpl; eauto; right.
  - unfold handleCapture. destruct (isCameraOn _); [destruct frame|]; auto.
  - destruct file; auto.
  - unfold read_settled. destruct (find _ _); auto.
    unfold handleFileChange_resume. destruct (fileToBase64 _ _); auto.
  - unfold selectScene. destruct (index _ _); auto.
  - unfold handleGenerate.
    destruct (userImage _); [destruct (selectedScene _)|]; auto.
  - unfold remote_settled. destruct (find _ _); auto.
    unfold handleGenerate_resume. destruct (editImage _ _ _ _); auto.
Qed.

Lemma in_filter_other (run : nat) (l : list nat) (r : nat) :
  In r (filter (fun x => negb (Nat.eqb run x)) l) -> In r l /\ r <> run.
Proof.
  intros H. apply filter_In in H as (Hin & Hneq). split; [assumption|].
  intros ->. now rewrite Nat.eqb_refl in Hneq.
Qed.

(** After a handler the effect's variables still fit the [isCameraOn] the
    mounted run was started with. *)
Lemma handle_coherent (e : Event) (w : World) :
  camera_coherent w -> coherent_with (isCameraOn (session w)) (handle e w).
Proof.
  intros Hc.
  destruct (handle_keeps_camera e w) as [(run & answer & ->)|(Ha & Hr & Hs & Hst)].
  - destruct Hc as (Hle & Hon & Hheld & Hone).
    simpl. unfold getUserMedia_settled.
    destruct (existsb (Nat.eqb run) (acquiring w)) eqn:Hrun;
      [|exact (conj Hle (conj Hon (conj Hheld Hone)))].
    apply existsb_exists in Hrun as (r & Hin & Heq). apply Nat.eqb_eq in Heq. subst r.
    destruct answer as [mediaStream|err]; unfold coherent_with; simpl.
    + split; [now apply Forall_filter|].
      split; [intros H; apply in_filter_other in H; apply Hon, H|].
      split.
      * intros i. rewrite length_app. simpl.
        destruct (Nat.eqb_spec run (effect_run w)) as [->|Hne].
        -- intros Hi. injection Hi as <-. split; [now apply Hon|lia].
        -- intros Hi. destruct (Hheld i Hi). split; [assumption|lia].
      * destruct (Nat.eqb_spec run (effect_run w)) as [->|Hne].
        -- intros _ H. apply in_filter_other in H. now destruct H.
        -- intros Hs H. apply in_filter_other in H. now apply (Hone Hs).
    + split; [now apply Forall_filter|].
      split; [intros H; apply in_filter_other in H; apply Hon, H|].
      split; [exact Hheld|].
      intros Hs H. apply in_filter_other in H. now apply (Hone Hs).
  - unfold camera_coherent, coherent_with in *. rewrite Ha, Hr, Hs, Hst. exact Hc.
Qed.

(** React's commit restores coherence with the new [isCameraOn]. *)
Lemma commit_coherent (was : bool) (w : World) :
  coherent_with was w -> camera_coherent (commit was w).
Proof.
  intros (Hle & Hon & Hheld & Hone). unfold commit, camera_coherent, coherent_with.
  destruct (Bool.eqb was (isCameraOn (session w))) eqn:Hsame.
  - apply Bool.eqb_prop in Hsame. subst was. simpl. auto.
  - simpl. split.
    + destruct (isCameraOn (session w)).
      * apply Forall_app. split; [|repeat constructor].
        eapply Forall_impl; [|exact Hle]. simpl. intros; lia.
      * eapply Forall_impl; [|exact Hle]. simpl. intros; lia.
    + split.
      * destruct (isCameraOn (session w)); [reflexivity|].
        intros H. rewrite Forall_forall in Hle. apply Hle in H. lia.
      * split; [discriminate|]. intros H. now contradiction H.
Qed.

Lemma step_coherent (e : Event) (w : World) :
  camera_coherent w -> camera_coherent (step e w).
Proof. intros H. apply commit_coherent, handle_coherent, H. Qed.

Lemma boot_coherent : camera_coherent boot.
Proof.
  unfold camera_coherent, coherent_with. simpl.
  split; [constructor|]. split; [contradiction|]. split; [discriminate|].
  intros H. now contradiction H.
Qed.

Lemma exec_coherent (history : list Event) : camera_coherent (exec history).
Proof.
  induction history as [|e history IH] using rev_ind.
  - apply boot_coherent.
  - rewrite exec_snoc. now apply step_coherent.
Qed.

Lemma others_ended_handle (e : Event) (w : World) :
  camera_coherent w -> others_ended w -> timely e w = true ->
  others_ended (handle e w).
Proof.
  intros (Hle & Hon & Hheld & Hone) Hothers Htimely.
  destruct (handle_keeps_camera e w) as [(run & answer & ->)|(_ & _ & Hs & Hst)].
  - simpl. unfold getUserMedia_settled.
    destruct (existsb (Nat.eqb run) (acquiring w)) eqn:Hrun; [|exact Hothers].
    apply existsb_exists in Hrun as (r & Hin & Heq). apply Nat.eqb_eq in Heq. subst r.
    destruct answer as [mediaStream|err]; [|exact Hothers].
    simpl in Htimely. apply Nat.eqb_eq in Htimely. subst run.
    assert (Hnone : effect_stream w = None).
    { destruct (effect_stream w) eqn:E; [|reflexivity].
      exfalso. apply Hone; [discriminate|exact Hin]. }
    unfold others_ended, index. simpl. rewrite Nat.eqb_refl.
    intros j ms Hj.
    destruct (Nat.lt_ge_cases j (length (streams w))) as [Hlt|Hge].
    + rewrite nth_error_app1 in Hj by assumption.
      destruct (Hothers j ms Hj) as [H|H]; [congruence|now right].
    + rewrite nth_error_app2 in Hj by assumption.
      destruct (j - length (streams w)) as [|d] eqn:Hd.
      * left. f_equal. lia.
      * simpl in Hj. now destruct d.
  - unfold others_ended in *. rewrite Hs, Hst. exact Hothers.
Qed.

Lemma others_ended_commit (was : bool) (w : World) :
  others_ended w -> others_ended (commit was w).
Proof.
  intros Hothers. unfold commit.
  destruct (Bool.eqb was (isCameraOn (session w))); [exact Hothers|].
  unfold others_ended. simpl. intros j ms Hj. right.
  destruct (effect_stream w) as [i|] eqn:Hheld.
  - destruct (Nat.eq_dec i j) as [->|Hne].
    + rewrite index_update_same in Hj.
      destruct (index (streams w) j); [|discriminate].
      injection Hj as <-. apply stop_all_ended.
    + rewrite index_update_other in Hj by assumption.
      destruct (Hothers j ms Hj) as [H|H]; [congruence|exact H].
  - destruct (Hothers j ms Hj) as [H|H]; [congruence|exact H].
Qed.

Lemma exec_from_timely (history : list Event) (w : World) :
  camera_coherent w -> others_ended w -> timely_from w history = true ->
  camera_coherent (exec_from w history) /\ others_ended (exec_from w history).
Proof.
  revert w. induction history as [|e history IH]; intros w Hc Ho Ht; simpl in *.
  - auto.
  - apply andb_prop in Ht as (He & Hrest).
    apply IH; [now apply step_coherent| |exact Hrest].
    apply others_ended_commit. now apply others_ended_handle.
Qed.

Lemma Forall_of_index {A} (P : A -> Prop) (l : list A) :
  (forall j x, index l j = Some x -> P x) -> Forall P l.
Proof.
  intros H. apply Forall_forall. intros x Hin.
  apply In_nth_error in Hin as (j & Hj). now apply (H j).
Qed.

(** What a reset does to the stream of the mounted run. *)
Lemma reset_releases (w : World) :
  camera_coherent w ->
  effect_stream (step EvReset w) = None /\
  forall i, effect_stream w = Some i ->
    exists ms, index (streams w) i = Some ms /\
               index (streams (step EvReset w)) i = Some (map stop ms).
Proof.
  intros (_ & _ & Hheld & _). unfold step, commit. simpl.
  destruct (isCameraOn (session w)) eqn:Hon; simpl.
  - split; [reflexivity|]. intros i Hi. rewrite Hi.
    destruct (Hheld i Hi) as (_ & Hlt).
    destruct (index (streams w) i) as [ms|] eqn:Hms.
    + exists ms. split; [reflexivity|].
      now rewrite index_update_same, Hms.
    + apply nth_error_None in Hms. lia.
  - destruct (effect_stream w) as [i|] eqn:Hi.
    + destruct (Hheld i eq_refl). discriminate.
    + split; [reflexivity|discriminate].
Qed.

(** From any state a reset puts the six state cells back to their
    initial values (Idle).  In every reachable state the mounted run of
    the camera effect holds no stream afterwards, and every track of the
    stream it held has been stopped.  When the device has answered no run
    already cleaned up, no stream with a live track is left at all. *)
Theorem reset_clears_session_and_releases_camera :
  (forall w : World, Idle (session (step EvReset w)))
  /\
  (forall history : list Event,
      let w := exec history in
      effect_stream (step EvReset w) = None /\
      forall i, effect_stream w = Some i ->
        exists ms, index (streams w) i = Some ms /\
                   index (streams (step EvReset w)) i = Some (map stop ms) /\
                   all_ended (map stop ms))
  /\
  (forall history : list Event,
      timely_from boot history = true ->
      Forall all_ended (streams (step EvReset (exec history)))).
Proof.
  split; [intros w; now rewrite session_step|]. split.
  - intros history w.
    destruct (reset_releases w (exec_coherent history)) as (Hnone & Hheld).
    split; [exact Hnone|]. intros i Hi.
    destruct (Hheld i Hi) as (ms & Hms & Hstopped).
    exists ms. auto using stop_all_ended.
  - intros history Htimely.
    destruct (exec_from_timely history boot boot_coherent) as (Hc & Ho);
      [intros j ms Hj; now destruct j|exact Htimely|].
    fold (exec history) in Hc, Ho.
    destruct (reset_releases (exec history) Hc) as (Hnone & _).
    apply Forall_of_index. intros j ms Hj.
    assert (Hafter : others_ended (step EvReset (exec history))).
    { apply others_ended_commit. now apply others_ended_handle. }
    destruct (Hafter j ms Hj) as [H|H]; [congruence|exact H].
Qed.

Lemma reset_clears_session_and_releases_camera_witness :
  (exists ms,
      index (streams (exec Sample.camera_running)) 0 = Some ms /\
      index (streams (step EvReset (exec Sample.camera_running))) 0 = Some (map stop ms) /\
      all_ended (map stop ms))
  /\ Forall all_ended (streams (step EvReset (exec Sample.camera_running))).
Proof.
  split.
  - apply (proj2 (proj1 (proj2 reset_clears_session_and_releases_camera)
                    Sample.camera_running) 0 eq_refl).
  - apply (proj2 (proj2 reset_clears_session_and_releases_camera)
             Sample.camera_running eq_refl).
Defined.

Example reset_stops_the_webcam :
  streams (exec Sample.camera_running) = [Sample.webcam] /\
  effect_stream (exec Sample.camera_running) = Some 0 /\
  streams (step EvReset (exec Sample.camera_running))
  = [[ {| kind := "video"; readyState := ended |} ]] /\
  effect_stream (step EvReset (exec Sample.camera_running)) = None.
Proof. repeat split. Qed.

(** A stream the device grants to a run that was cleaned up while the
    request was pending is held by no mounted run: no cleanup ever stops
    it, a reset included. *)
Example late_stream_stays_live :
  let history := [EvUseCamera; EvCancelCamera; EvDevice 1 (Fulfilled Sample.webcam)] in
  timely_from boot history = false /\
  effect_stream (exec history) = None /\
  streams (step EvReset (exec history)) = [Sample.webcam].
Proof. repeat split. Qed.

(** * Further properties of the code *)

(** ** The encoder and the request client *)

(** X1.  On a data URL whose part before the comma and whose payload
    contain no comma, [fileToBase64] resolves with exactly the non-empty
    payload: the prefix is removed and nothing else is changed. *)
Theorem fileToBase64_payload
    {File : Type} (readAsDataURL : File -> ReadOutcome) (file : File)
    (prefix payload : string) :
  readAsDataURL file = Loaded (prefix ++ String "," payload)%string ->
  free_of "," prefix = true ->
  free_of "," payload = true ->
  payload <> ""%string ->
  fileToBase64 readAsDataURL file = Fulfilled payload.
Proof.
  intros Hread Hprefix Hpayload Hne. unfold fileToBase64.
  rewrite Hread, second_piece_of_data_url by assumption.
  destruct payload; [contradiction|reflexivity].
Qed.

Lemma fileToBase64_payload_witness :
  fileToBase64 (fun _ : string => Loaded "data:image/png;base64,iVBORw0KGgo=") "dot.png"
  = Fulfilled "iVBORw0KGgo="%string.
Proof.
  apply (fileToBase64_payload (fun _ : string => Loaded "data:image/png;base64,iVBORw0KGgo=")
           "dot.png" "data:image/png;base64" "iVBORw0KGgo=" eq_refl eq_refl eq_refl).
  discriminate.
Defined.

(** X2.  Only the text between the first and the second comma counts:
    when the read result has a second comma, what follows it is dropped,
    and an empty stretch between the two commas rejects the promise
    however much follows. *)
Theorem fileToBase64_cuts_at_second_comma
    {File : Type} (readAsDataURL : File -> ReadOutcome) (file : File)
    (prefix piece tail : string) :
  readAsDataURL file
  = Loaded (prefix ++ String "," (piece ++ String "," tail))%string ->
  free_of "," prefix = true ->
  free_of "," piece = true ->
  fileToBase64 readAsDataURL file
  = if truthy piece then Fulfilled piece else Rejected ReadFailure.
Proof.
  intros Hread Hprefix Hpiece. unfold fileToBase64.
  rewrite Hread. rewrite !split_at_first by assumption. reflexivity.
Qed.

Lemma fileToBase64_cuts_at_second_comma_witness :
  fileToBase64 (fun _ : string => Loaded "data:text/plain,hello,world") "note.txt"
  = Fulfilled "hello"%string
  /\ fileToBase64 (fun _ : string => Loaded "data:text/plain,,world") "note.txt"
     = Rejected ReadFailure.
Proof.
  split.
  - apply (fileToBase64_cuts_at_second_comma
             (fun _ : string => Loaded "data:text/plain,hello,world") "note.txt"
             "data:text/plain" "hello" "world" eq_refl eq_refl eq_refl).
  - apply (fileToBase64_cuts_at_second_comma
             (fun _ : string => Loaded "data:text/plain,,world") "note.txt"
             "data:text/plain" "" "world" eq_refl eq_refl eq_refl).
Defined.

Lemma scan_parts_some (ps : list Part) (d : string) :
  scan_parts ps = Some d ->
  exists before part blob after,
    ps = before ++ part :: after /\
    existsb carries_image before = false /\
    inlineData part = Some blob /\ data blob = d.
Proof.
  induction ps as [|p ps IH]; simpl; [discriminate|].
  destruct (inlineData p) as [blob|] eqn:Hblob.
  - intros H. injection H as <-. exists [], p, blob, ps. auto.
  - intros H. destruct (IH H) as (before & part & blob & after & -> & Hb & Hi & Hd).
    exists (p :: before), part, blob, after. simpl. unfold carries_image at 1.
    rewrite Hblob. auto.
Qed.

(** X3.  [editImage] resolves with nothing of its own making: when it
    fulfils with [d], the remote call fulfilled, the first candidate has
    a parts list, and [d] is the data of the first part of that list
    that has [inlineData]. *)
Theorem editImage_fulfilled_only_with_first_image
    (generateContent : GenerateContentParameters -> Settled GenerateContentResponse)
    (base64Image mimeType prompt d : string) :
  editImage generateContent base64Image mimeType prompt = Fulfilled d ->
  exists response before part blob after,
    generateContent (editImage_request base64Image mimeType prompt) = Fulfilled response /\
    response_parts response = inr (before ++ part :: after) /\
    existsb carries_image before = false /\
    inlineData part = Some blob /\ data blob = d.
Proof.
  unfold editImage, editImage_resume.
  destruct (generateContent _) as [response|e] eqn:Hremote; [|discriminate].
  destruct (response_parts response) as [e|ps] eqn:Hparts; [discriminate|].
  destruct (scan_parts ps) as [d'|] eqn:Hscan; [|discriminate].
  intros H. injection H as <-.
  destruct (scan_parts_some ps d' Hscan)
    as (before & part & blob & after & -> & Hb & Hi & Hd).
  exists response, before, part, blob, after.
  repeat split; assumption || reflexivity.
Qed.

Lemma editImage_fulfilled_only_with_first_image_witness :
  exists response before part blob after,
    (fun _ : GenerateContentParameters => Fulfilled Sample.captioned)
      (editImage_request "cGhvdG8=" "image/jpeg" "to Rome") = Fulfilled response /\
    response_parts response = inr (before ++ part :: after) /\
    existsb carries_image before = false /\
    inlineData part = Some blob /\ data blob = "UQ=="%string.
Proof.
  apply (editImage_fulfilled_only_with_first_image
           (fun _ => Fulfilled Sample.captioned) "cGhvdG8=" "image/jpeg" "to Rome" "UQ=="
           eq_refl).
Defined.

(** X4.  Only the first candidate of the response is read: the outcome
    is the same whatever candidates follow it, so an image carried by a
    later candidate is never returned. *)
Theorem editImage_reads_first_candidate_only
    (first : Candidate) (others : list Candidate) (base64Image mimeType prompt : string) :
  editImage (fun _ => Fulfilled {| candidates := Some (first :: others) |})
    base64Image mimeType prompt
  = editImage (fun _ => Fulfilled {| candidates := Some [first] |})
      base64Image mimeType prompt.
Proof. reflexivity. Qed.

Example image_in_second_candidate_is_missed :
  editImage
    (fun _ => Fulfilled
       {| candidates :=
            Some [ {| content := Some {| parts := Some [Sample.caption] |} |};
                   {| content := Some {| parts := Some [Sample.picture] |} |} ] |})
    "cGhvdG8=" "image/jpeg" "to Rome"
  = Rejected NoImageReturned.
Proof. reflexivity. Qed.

Lemma response_parts_error (response : GenerateContentResponse) (e : Thrown) :
  response_parts response = inl e ->
  exists message, e = ErrorObject "TypeError" message.
Proof.
  unfold response_parts, readOfUndefined, notIterable.
  destruct (candidates response) as [cs|]; [|intros H; injection H as <-; eauto].
  destruct (index cs 0) as [c|]; [|intros H; injection H as <-; eauto].
  destruct (content c) as [ct|]; [|intros H; injection H as <-; eauto].
  destruct (parts ct); [discriminate|intros H; injection H as <-; eauto].
Qed.

(** The console once the promise just created has settled. *)
Lemma generate_settled_console (w : World) (photo : UserImage) (scene : Scene)
    (remote : Settled GenerateContentResponse) :
  tickets_fresh w ->
  userImage (session w) = Some photo ->
  selectedScene (session w) = Some scene ->
  console (step (EvRemote (next_ticket w) remote) (step EvGenerate w))
  = match editImage (fun _ => remote) (base64 photo) (mimeType photo) (prompt_for scene) with
    | Fulfilled _ => console w
    | Rejected err => console w ++ [err]
    end.
Proof.
  intros Hfresh Hp Hs.
  destruct (generate_accepted w photo scene Hp Hs) as (_ & Hin & _ & Hcon).
  rewrite (console_step (EvRemote _ _)).
  simpl. unfold remote_settled. rewrite Hin.
  rewrite find_new_edit by (assumption || reflexivity).
  cbn [edit_userImage edit_prompt].
  unfold handleGenerate_resume.
  destruct (editImage _ _ _ _); simpl; now rewrite Hcon.
Qed.

(** X5.  A response without a first candidate, or whose first candidate
    lacks its content or its parts, does not produce the no-image error:
    the access of line 40 throws a [TypeError], and the session reports
    it like any other failure, as "An error occurred: " followed by that
    error's message, with the error logged and no result stored. *)
Theorem generate_with_incomplete_response
    (history : list Event) (photo : UserImage) (scene : Scene)
    (response : GenerateContentResponse) (e : Thrown) :
  let w := exec history in
  userImage (session w) = Some photo ->
  selectedScene (session w) = Some scene ->
  response_parts response = inl e ->
  let failed := step (EvRemote (next_ticket w) (Fulfilled response)) (step EvGenerate w) in
  e <> NoImageReturned /\
  exists message,
    e = ErrorObject "TypeError" message /\
    error (session failed) = Some ("An error occurred: " ++ message)%string /\
    generatedImage (session failed) = None /\
    isLoading (session failed) = false /\
    console failed = console w ++ [e].
Proof.
  intros w Hp Hs Hparts failed.
  destruct (response_parts_error response e Hparts) as (message & ->).
  split; [discriminate|]. exists message. split; [reflexivity|].
  destruct (generate_accepted w photo scene Hp Hs) as (Hsess & _).
  destruct (generate_settled w photo scene (Fulfilled response)
              (exec_tickets_fresh history) Hp Hs) as (Hfailed & _).
  pose proof (generate_settled_console w photo scene (Fulfilled response)
                (exec_tickets_fresh history) Hp Hs) as Hcon.
  fold failed in Hfailed, Hcon.
  unfold editImage, editImage_resume in Hfailed, Hcon. rewrite Hparts in Hfailed, Hcon.
  rewrite Hfailed, Hsess, Hcon. repeat split.
Qed.

Lemma generate_with_incomplete_response_witness :
  error (session (step (EvRemote 1 (Fulfilled Sample.blocked))
                    (step EvGenerate (exec Sample.scene_picked))))
  = Some "An error occurred: Cannot read properties of undefined (reading 'parts')"%string.
Proof.
  destruct (generate_with_incomplete_response Sample.scene_picked Sample.photo Sample.rome
              Sample.blocked (readOfUndefined "parts") eq_refl eq_refl eq_refl)
    as (_ & message & Hmessage & Herror & _).
  injection Hmessage as <-. exact Herror.
Defined.

(** ** Uploading and capturing a photo *)

Lemma filter_drops_new_read (w : World) (p : PendingRead) :
  tickets_fresh w ->
  read_ticket p = next_ticket w ->
  filter (fun q => negb (has_read (next_ticket w) q)) (reading w ++ [p]) = reading w.
Proof.
  intros [_ Hr] Hp. rewrite filter_app. simpl.
  unfold has_read at 2. rewrite Hp, Nat.eqb_refl. simpl. rewrite app_nil_r.
  induction Hr as [|q l Hq _ IH]; simpl; [reflexivity|].
  unfold has_read at 1. destruct (Nat.eqb_spec (read_ticket q) (next_ticket w)); [lia|].
  simpl. now rewrite IH.
Qed.

(** The session once the read started by a file choice has finished. *)
Lemma upload_settled (w : World) (file : File) (read : ReadOutcome) :
  tickets_fresh w ->
  let after := step (EvFileRead (next_ticket w) read) (step (EvFileChange (Some file)) w) in
  session after
  = match fileToBase64 (fun _ => read) file with
    | Fulfilled b =>
        setError None
          (setUserImage
             (Some {| base64 := b; url := objectURL file; mimeType := type file |})
             (session w))
    | Rejected _ => setError (Some read_failed) (session w)
    end
  /\ reading after = reading w /\ inflight after = inflight w.
Proof.
  intros Hfresh after. subst after.
  set (w1 := step (EvFileChange (Some file)) w).
  assert (S1 : session w1 = session w) by (unfold w1; now rewrite session_step).
  assert (R1 : reading w1
               = reading w ++ [ {| read_ticket := next_ticket w; read_file := file |} ])
    by (unfold w1; now rewrite reading_step).
  assert (I1 : inflight w1 = inflight w) by (unfold w1; now rewrite inflight_step).
  rewrite session_step, reading_step, inflight_step.
  simpl. unfold read_settled. rewrite R1.
  rewrite find_new_read by (assumption || reflexivity).
  rewrite filter_drops_new_read by (assumption || reflexivity).
  cbn [read_file]. unfold handleFileChange_resume.
  destruct (fileToBase64 _ file); simpl; rewrite S1, I1; auto.
Qed.

(** X6.  An upload whose read gives a data URL stores the photo with the
    URL's payload as data, the object URL for display and the media type
    of the file itself (not the one named in the data URL); it clears the
    error and leaves scene, result, loading flag and camera as they were.
    A read that fails, or gives no payload, only sets "Could not read the
    selected file." and keeps the previous photo. *)
Theorem upload_outcome (history : list Event) (file : File) (read : ReadOutcome) :
  let w := exec history in
  let after := step (EvFileRead (next_ticket w) read) (step (EvFileChange (Some file)) w) in
  (forall prefix payload,
      read = Loaded (prefix ++ String "," payload)%string ->
      free_of "," prefix = true -> free_of "," payload = true -> payload <> ""%string ->
      session after
      = setError None
          (setUserImage
             (Some {| base64 := payload; url := objectURL file; mimeType := type file |})
             (session w)))
  /\
  (forall err,
      fileToBase64 (fun _ => read) file = Rejected err ->
      session after = setError (Some read_failed) (session w)).
Proof.
  intros w after.
  destruct (upload_settled w file read (exec_tickets_fresh history)) as (Hsess & _).
  fold after in Hsess. split.
  - intros prefix payload Hread Hprefix Hpayload Hne.
    rewrite Hsess. unfold fileToBase64. rewrite Hread.
    rewrite second_piece_of_data_url by assumption.
    destruct payload; [contradiction|reflexivity].
  - intros err Herr. now rewrite Hsess, Herr.
Qed.

Lemma upload_outcome_witness :
  userImage
    (session (step (EvFileRead 0 Sample.portrait_read)
                (step (EvFileChange (Some Sample.portrait)) (exec []))))
  = Some Sample.photo
  /\ session (step (EvFileRead 0 (ReadError "NotReadableError"))
                (step (EvFileChange (Some Sample.portrait)) (exec [])))
     = setError (Some "Could not read the selected file.") initial.
Proof.
  split.
  - exact (f_equal userImage
             (proj1 (upload_outcome [] Sample.portrait Sample.portrait_read)
                "data:image/png;base64"%string "cGhvdG8="%string
                eq_refl eq_refl eq_refl ltac:(discriminate))).
  - apply (proj2 (upload_outcome [] Sample.portrait (ReadError "NotReadableError"))
             (OtherValue "NotReadableError") eq_refl).
Defined.

(** ** The camera effect *)

(** A handler that switches the camera off touches neither the streams
    nor the variable of the mounted run. *)
Lemma handle_off_keeps_streams (e : Event) (w : World) :
  isCameraOn (session w) = true ->
  isCameraOn (session (handle e w)) = false ->
  effect_stream (handle e w) = effect_stream w /\ streams (handle e w) = streams w.
Proof.
  intros Hon Hoff.
  destruct (handle_keeps_camera e w) as [(run & answer & ->)|(_ & _ & Hs & Hst)]; [|auto].
  simpl in *. unfold getUserMedia_settled in *.
  destruct (existsb (Nat.eqb run) (acquiring w)); [|congruence].
  destruct answer; simpl in *; [congruence|auto].
Qed.

(** Whatever switches the camera off stops the stream of the mounted run. *)
Lemma camera_off_releases (e : Event) (w : World) (i : nat) :
  camera_coherent w ->
  effect_stream w = Some i ->
  isCameraOn (session (step e w)) = false ->
  effect_stream (step e w) = None /\
  exists ms, index (streams w) i = Some ms /\
             index (streams (step e w)) i = Some (map stop ms).
Proof.
  intros (_ & _ & Hheld & _) Hi Hoff.
  destruct (Hheld i Hi) as (Hon & Hlt).
  rewrite session_step in Hoff.
  destruct (handle_off_keeps_streams e w Hon Hoff) as (Hs & Hst).
  unfold step, commit. rewrite Hon, Hoff. simpl. rewrite Hs, Hst, Hi.
  split; [reflexivity|].
  destruct (index (streams w) i) as [ms|] eqn:Hms.
  - exists ms. split; [reflexivity|]. now rewrite index_update_same, Hms.
  - apply nth_error_None in Hms. lia.
Qed.

(** X7.  Whatever event leaves the camera switched off ("Cancel", a
    capture, a refusal by the device, a reset) makes the cleanup of the
    effect run: the mounted run holds no stream afterwards and every
    track of the stream it held is stopped. *)
Theorem camera_off_stops_stream (history : list Event) (e : Event) (i : nat) :
  let w := exec history in
  effect_stream w = Some i ->
  isCameraOn (session (step e w)) = false ->
  effect_stream (step e w) = None /\
  exists ms, index (streams w) i = Some ms /\
             index (streams (step e w)) i = Some (map stop ms) /\
             all_ended (map stop ms).
Proof.
  intros w Hi Hoff.
  destruct (camera_off_releases e w i (exec_coherent history) Hi Hoff)
    as (Hnone & ms & Hms & Hstopped).
  split; [exact Hnone|]. exists ms. auto using stop_all_ended.
Qed.

Lemma camera_off_stops_stream_witness :
  effect_stream (step EvCancelCamera (exec Sample.camera_running)) = None /\
  exists ms, index (streams (exec Sample.camera_running)) 0 = Some ms /\
             index (streams (step EvCancelCamera (exec Sample.camera_running))) 0
             = Some (map stop ms) /\
             all_ended (map stop ms).
Proof.
  apply (camera_off_stops_stream Sample.camera_running EvCancelCamera 0 eq_refl eq_refl).
Defined.

(** X8.  "Capture Photo" with the camera on and a frame that has pixels
    stores the frame as the photo: its JPEG payload as data, the data URL
    for display, media type [image/jpeg]; it clears the error, switches
    the camera off and leaves scene, result and loading flag alone.  The
    mounted run holds no stream afterwards. *)
Theorem capture_stores_frame (history : list Event) (video : VideoFrame) :
  let w := exec history in
  isCameraOn (session w) = true ->
  videoWidth video <> 0 -> videoHeight video <> 0 ->
  free_of "," (jpeg video) = true ->
  let shot := step (EvCapture (Some video)) w in
  session shot
  = setError None
      (setIsCameraOn false
         (setUserImage
            (Some {| base64 := jpeg video;
                     url := ("data:image/jpeg;base64," ++ jpeg video)%string;
                     mimeType := "image/jpeg" |})
            (session w)))
  /\ effect_stream shot = None.
Proof.
  intros w Hon Hw Hh Hfree shot.
  assert (Hsess : session shot
                  = setError None
                      (setIsCameraOn false
                         (setUserImage
                            (Some {| base64 := jpeg video;
                                     url := ("data:image/jpeg;base64," ++ jpeg video)%string;
                                     mimeType := "image/jpeg" |})
                            (session w)))).
  { unfold shot. rewrite session_step. simpl. unfold handleCapture, toDataURL.
    rewrite Hon.
    destruct (Nat.eqb_spec (videoWidth video) 0); [contradiction|].
    destruct (Nat.eqb_spec (videoHeight video) 0); [contradiction|].
    cbn [orb].
    change ("data:image/jpeg;base64," ++ jpeg video)%string
      with ("data:image/jpeg;base64" ++ String "," (jpeg video))%string.
    rewrite second_piece_of_data_url by (reflexivity || assumption).
    reflexivity. }
  split; [exact Hsess|].
  destruct (effect_stream w) as [i|] eqn:Hi.
  - apply (camera_off_releases (EvCapture (Some video)) w i (exec_coherent history) Hi).
    fold shot. now rewrite Hsess.
  - unfold shot, step, commit. simpl. unfold handleCapture. rewrite Hon. now simpl.
Qed.

Lemma capture_stores_frame_witness :
  session (step (EvCapture (Some {| videoWidth := 640; videoHeight := 480;
                                    jpeg := "c25hcA==" |}))
             (exec Sample.camera_running))
  = setError None (setIsCameraOn false (setUserImage (Some Sample.snapshot) initial))
  /\ effect_stream
       (step (EvCapture (Some {| videoWidth := 640; videoHeight := 480;
                                 jpeg := "c25hcA==" |}))
          (exec Sample.camera_running))
     = None.
Proof.
  apply (capture_stores_frame Sample.camera_running
           {| videoWidth := 640; videoHeight := 480; jpeg := "c25hcA==" |}
           eq_refl (Nat.neq_succ_0 _) (Nat.neq_succ_0 _) eq_refl).
Defined.

(** X9.  "Capture Photo" pressed while the video has no dimensions yet
    (the panel shows the button before the device has granted the
    stream) stores a photo with empty data and the URL ["data:,"]; the
    guard of [handleGenerate] accepts it, so once a scene is picked the
    generate action sends a request whose image data is the empty
    string. *)
Theorem capture_of_empty_frame_is_sent
    (history : list Event) (video : VideoFrame) (k : nat) (scene : Scene) :
  let w := exec history in
  isCameraOn (session w) = true ->
  videoWidth video = 0 \/ videoHeight video = 0 ->
  index HISTORICAL_SCENES k = Some scene ->
  let shot := step (EvCapture (Some video)) w in
  let sent := step EvGenerate (step (EvSelectScene k) shot) in
  userImage (session shot)
  = Some {| base64 := ""; url := "data:,"; mimeType := "image/jpeg" |}
  /\ exists p,
       inflight sent = inflight w ++ [p] /\
       contents (edit_request p)
       = [ {| text := None;
              inlineData := Some {| data := ""; blobMimeType := "image/jpeg" |} |};
           {| text := Some (prompt_for scene); inlineData := None |} ].
Proof.
  intros w Hon Hempty Hscene shot sent.
  assert (Hshot : userImage (session shot)
                  = Some {| base64 := ""; url := "data:,"; mimeType := "image/jpeg" |}).
  { unfold shot. rewrite session_step. simpl. unfold handleCapture, toDataURL.
    rewrite Hon.
    assert (Hz : Nat.eqb (videoWidth video) 0 || Nat.eqb (videoHeight video) 0 = true).
    { destruct Hempty as [-> | ->]; simpl; [reflexivity|apply orb_true_r]. }
    rewrite Hz. reflexivity. }
  split; [exact Hshot|].
  assert (Hin : inflight shot = inflight w).
  { unfold shot. rewrite inflight_step. simpl. unfold handleCapture.
    now rewrite Hon. }
  set (picked := step (EvSelectScene k) shot).
  assert (Hh : handle (EvSelectScene k) shot
               = with_session (setSelectedScene (Some scene)) shot)
    by (simpl; unfold selectScene; now rewrite Hscene).
  assert (Hp : userImage (session picked)
               = Some {| base64 := ""; url := "data:,"; mimeType := "image/jpeg" |})
    by (unfold picked; now rewrite session_step, Hh).
  assert (Hs : selectedScene (session picked) = Some scene)
    by (unfold picked; now rewrite session_step, Hh).
  assert (Hi : inflight picked = inflight w)
    by (unfold picked; now rewrite inflight_step, Hh).
  destruct (generate_accepted picked _ _ Hp Hs) as (_ & Hsent & _).
  fold sent in Hsent. rewrite Hi in Hsent.
  eexists. split; [exact Hsent|reflexivity].
Qed.

Lemma capture_of_empty_frame_is_sent_witness :
  userImage
    (session (step (EvCapture (Some {| videoWidth := 0; videoHeight := 0; jpeg := "" |}))
                (exec [EvUseCamera])))
  = Some {| base64 := ""; url := "data:,"; mimeType := "image/jpeg" |}
  /\ offered_from boot
       [EvUseCamera; EvCapture (Some {| videoWidth := 0; videoHeight := 0; jpeg := "" |});
        EvSelectScene 0; EvGenerate]
     = true.
Proof.
  split; [|reflexivity].
  apply (proj1 (capture_of_empty_frame_is_sent [EvUseCamera]
                  {| videoWidth := 0; videoHeight := 0; jpeg := "" |} 0 Sample.rome
                  eq_refl (or_introl eq_refl) eq_refl)).
Defined.

(** X10.  After a reset the file input is on the page and empty,
    whatever it held before: either it was there and line 150 cleared
    it, or it was not rendered and comes back as a new element. *)
Theorem reset_leaves_file_input_empty (w : World) :
  fileInput (step EvReset w) = Some ""%string.
Proof.
  unfold step, commit. simpl.
  destruct (isCameraOn (session w)); simpl; now destruct (fileInput w).
Qed.

(** X11.  When the device refuses a pending request, the message "Could
    not access the camera. Please check permissions." is set, the error
    is logged and the camera is switched off, so that the mounted run
    holds no stream.  This also happens when the refusal answers a
    request of a run that has been cleaned up in the meantime. *)
Theorem camera_refused (history : list Event) (run : nat) (err : Thrown) :
  let w := exec history in
  In run (acquiring w) ->
  let after := step (EvDevice run (Rejected err)) w in
  session after = setIsCameraOn false (setError (Some camera_failed) (session w)) /\
  console after = console w ++ [err] /\
  effect_stream after = None /\
  ~ In run (acquiring after).
Proof.
  intros w Hrun after.
  assert (Hex : existsb (Nat.eqb run) (acquiring w) = true).
  { apply existsb_exists. exists run. split; [assumption|apply Nat.eqb_refl]. }
  assert (Hh : handle (EvDevice run (Rejected err)) w
               = {| session := setIsCameraOn false (setError (Some camera_failed) (session w));
                    next_ticket := next_ticket w;
                    inflight := inflight w; reading := reading w;
                    console := console w ++ [err];
                    streams := streams w; effect_run := effect_run w;
                    effect_stream := effect_stream w;
                    acquiring := filter (fun r => negb (Nat.eqb run r)) (acquiring w);
                    fileInput := fileInput w |}).
  { simpl. unfold getUserMedia_settled. now rewrite Hex. }
  split; [unfold after; now rewrite session_step, Hh|].
  split; [unfold after; now rewrite console_step, Hh|].
  destruct (exec_coherent history) as (_ & _ & Hheld & _). fold w in Hheld.
  unfold after, step, commit. rewrite Hh. simpl.
  destruct (isCameraOn (session w)) eqn:Hon; simpl.
  - split; [reflexivity|]. intros H. apply in_filter_other in H. now destruct H.
  - split.
    + destruct (effect_stream w) as [i|]; [|reflexivity].
      destruct (Hheld i eq_refl). discriminate.
    + intros H. apply in_filter_other in H. now destruct H.
Qed.

Lemma camera_refused_witness :
  session (step (EvDevice 1 (Rejected (ErrorObject "NotAllowedError" "Permission denied")))
             (exec [EvUseCamera]))
  = setIsCameraOn false
      (setError (Some "Could not access the camera. Please check permissions.")
         (session (exec [EvUseCamera]))).
Proof.
  apply (proj1 (camera_refused [EvUseCamera] 1
                  (ErrorObject "NotAllowedError" "Permission denied")
                  (or_introl eq_refl))).
Defined.

(** X12.  In every reachable state the mounted run of the camera effect
    holds or awaits a stream only while the camera is on: with
    [isCameraOn] false its variable is [null] and it has no request
    pending; and what it holds is a stream the device handed out. *)
Theorem camera_effect_follows_flag (history : list Event) :
  let w := exec history in
  (isCameraOn (session w) = false ->
   effect_stream w = None /\ ~ In (effect_run w) (acquiring w))
  /\ (forall i, effect_stream w = Some i -> exists ms, index (streams w) i = Some ms).
Proof.
  intros w. destruct (exec_coherent history) as (_ & Hon & Hheld & _).
  fold w in Hon, Hheld. split.
  - intros Hoff. split.
    + destruct (effect_stream w) as [i|]; [|reflexivity].
      destruct (Hheld i eq_refl). congruence.
    + intros H. apply Hon in H. congruence.
  - intros i Hi. destruct (Hheld i Hi) as (_ & Hlt).
    destruct (index (streams w) i) as [ms|] eqn:Hms; [eauto|].
    apply nth_error_None in Hms. lia.
Qed.

Lemma camera_effect_follows_flag_witness :
  effect_stream (exec (Sample.camera_running ++ [EvCancelCamera])) = None /\
  ~ In (effect_run (exec (Sample.camera_running ++ [EvCancelCamera])))
       (acquiring (exec (Sample.camera_running ++ [EvCancelCamera]))).
Proof.
  apply (proj1 (camera_effect_follows_flag (Sample.camera_running ++ [EvCancelCamera]))
           eq_refl).
Defined.

(** X13.  As long as the device answers only the run that is mounted, at
    most one stream has a live track at any time: every stream but the
    one the mounted run holds has been stopped. *)
Theorem one_live_stream (history : list Event) (j : nat) (ms : MediaStream) :
  timely_from boot history = true ->
  index (streams (exec history)) j = Some ms ->
  effect_stream (exec history) = Some j \/ all_ended ms.
Proof.
  intros Htimely Hj.
  destruct (exec_from_timely history boot boot_coherent) as (_ & Ho);
    [intros i s Hi; now destruct i|exact Htimely|].
  exact (Ho j ms Hj).
Qed.

Lemma one_live_stream_witness :
  effect_stream (exec Sample.two_sessions) = Some 0 \/
  all_ended [ {| kind := "video"; readyState := ended |} ].
Proof.
  apply (one_live_stream Sample.two_sessions 0 _ eq_refl eq_refl).
Defined.

(** A stream that no mounted run holds stays as it is through any step. *)
Lemma unheld_stream_kept (e : Event) (w : World) (j : nat) (ms : MediaStream) :
  index (streams w) j = Some ms ->
  effect_stream w <> Some j ->
  index (streams (step e w)) j = Some ms /\ effect_stream (step e w) <> Some j.
Proof.
  intros Hj Hfree.
  assert (Hlt : j < length (streams w)).
  { apply nth_error_Some. unfold index in Hj. congruence. }
  assert (Hh : index (streams (handle e w)) j = Some ms /\
               effect_stream (handle e w) <> Some j).
  { destruct (handle_keeps_camera e w) as [(run & answer & ->)|(_ & _ & Hs & Hst)].
    - simpl. unfold getUserMedia_settled.
      destruct (existsb (Nat.eqb run) (acquiring w)); [|auto].
      destruct answer as [mediaStream|err]; simpl; [|auto].
      split.
      + unfold index. now rewrite nth_error_app1.
      + destruct (Nat.eqb run (effect_run w)); [|assumption].
        intros H. injection H as H. lia.
    - now rewrite Hs, Hst. }
  destruct Hh as (Hj' & Hfree').
  unfold step, commit.
  destruct (Bool.eqb _ _); simpl; [auto|].
  split; [|discriminate].
  destruct (effect_stream (handle e w)) as [i|] eqn:Hi; [|exact Hj'].
  rewrite index_update_other; [exact Hj'|congruence].
Qed.

(** X14.  A stream the device grants to a run that has been cleaned up
    while its request was pending is never stopped: no run that is or
    will be mounted holds it, and after any further events, resets
    included, it is exactly as the device handed it out. *)
Theorem late_stream_never_stopped
    (history later : list Event) (run : nat) (ms : MediaStream) :
  let w := exec history in
  In run (acquiring w) ->
  run <> effect_run w ->
  let granted := step (EvDevice run (Fulfilled ms)) w in
  index (streams (exec_from granted later)) (length (streams w)) = Some ms /\
  effect_stream (exec_from granted later) <> Some (length (streams w)).
Proof.
  intros w Hrun Hstale granted.
  assert (Hstart : index (streams granted) (length (streams w)) = Some ms /\
                   effect_stream granted <> Some (length (streams w))).
  { assert (Hex : existsb (Nat.eqb run) (acquiring w) = true).
    { apply existsb_exists. exists run. split; [assumption|apply Nat.eqb_refl]. }
    destruct (exec_coherent history) as (_ & _ & Hheld & _). fold w in Hheld.
    assert (Hfree : effect_stream w <> Some (length (streams w))).
    { intros H. destruct (Hheld _ H). lia. }
    unfold granted, step, commit. simpl. unfold getUserMedia_settled. rewrite Hex.
    simpl. rewrite Bool.eqb_reflx. simpl.
    destruct (Nat.eqb_spec run (effect_run w)); [contradiction|].
    split; [|assumption].
    unfold index. rewrite nth_error_app2 by lia. now rewrite Nat.sub_diag. }
  clearbody granted. revert granted Hstart.
  induction later as [|e later IH]; intros granted (Hj & Hfree); simpl; [auto|].
  apply IH. now apply unheld_stream_kept.
Qed.

Lemma late_stream_never_stopped_witness :
  index
    (streams
       (exec_from (step (EvDevice 1 (Fulfilled Sample.webcam))
                     (exec [EvUseCamera; EvCancelCamera]))
          [EvUseCamera; EvCancelCamera; EvReset]))
    0
  = Some Sample.webcam.
Proof.
  apply (proj1 (late_stream_never_stopped [EvUseCamera; EvCancelCamera]
                  [EvUseCamera; EvCancelCamera; EvReset] 1 Sample.webcam
                  (or_introl eq_refl) (Nat.neq_succ_diag_r 1))).
Defined.

(** ** What the reachable sessions look like *)

Lemma describe_not_validation (err : Thrown) : describe err <> validation_failed.
Proof. destruct err; discriminate. Qed.

(** The generate button is enabled only where [handleGenerate] passes
    its guard. *)
Lemma offered_generate_accepted (w : World) :
  offered EvGenerate w = true ->
  exists photo scene,
    userImage (session w) = Some photo /\ selectedScene (session w) = Some scene.
Proof.
  simpl. unfold picker_shown, present. intros H.
  apply andb_prop in H as (Hshown & Henabled).
  apply andb_prop in Hshown as (Hphoto & _).
  apply negb_true_iff, orb_false_iff in Henabled as (_ & Hscene).
  apply negb_false_iff in Hscene.
  destruct (userImage (session w)) as [photo|]; [|discriminate].
  destruct (selectedScene (session w)) as [scene|]; [|discriminate].
  eauto.
Qed.

Lemma step_keeps_validation_away (e : Event) (w : World) :
  offered e w = true ->
  error (session w) <> Some validation_failed ->
  error (session (step e w)) <> Some validation_failed.
Proof.
  intros Hoffered Hw. rewrite session_step.
  destruct e; simpl; try assumption; try discriminate.
  - unfold getUserMedia_settled.
    destruct (existsb _ _); [destruct answer|]; simpl; assumption || discriminate.
  - unfold handleCapture.
    destruct (isCameraOn _); [destruct frame|]; simpl; assumption || discriminate.
  - destruct file; assumption.
  - unfold read_settled. destruct (find _ _); [|assumption].
    unfold handleFileChange_resume. destruct (fileToBase64 _ _); simpl; discriminate.
  - unfold selectScene. destruct (index _ _); assumption.
  - destruct (offered_generate_accepted w Hoffered) as (photo & scene & Hp & Hs).
    unfold handleGenerate. rewrite Hp, Hs. simpl. discriminate.
  - unfold remote_settled. destruct (find _ _); [|assumption].
    unfold handleGenerate_resume. destruct (editImage _ _ _ _) as [Q|err]; simpl.
    + assumption.
    + intros H. injection H as H. now apply describe_not_validation in H.
Qed.

(** X15.  The guard of [handleGenerate] is out of the page's reach: the
    generate button is enabled only with a photo and a scene present, so
    in no history of events the page offers does [error] hold "Please
    provide a photo and select a scene.". *)
Theorem page_never_shows_validation_message (history : list Event) :
  offered_from boot history = true ->
  error (session (exec history)) <> Some validation_failed.
Proof.
  unfold exec.
  assert (Hboot : error (session boot) <> Some validation_failed) by discriminate.
  revert Hboot. generalize boot as w.
  induction history as [|e history IH]; intros w Hw Hoffered; simpl in *; [assumption|].
  apply andb_prop in Hoffered as (He & Hrest).
  apply IH; [|exact Hrest]. now apply step_keeps_validation_away.
Qed.

Lemma page_never_shows_validation_message_witness :
  error (session (exec (Sample.scene_picked ++ [EvGenerate]))) <> Some validation_failed.
Proof.
  apply (page_never_shows_validation_message (Sample.scene_picked ++ [EvGenerate]) eq_refl).
Defined.

Lemma handle_loading_backed (e : Event) (w : World) :
  loading_is_backed w -> loading_is_backed (handle e w).
Proof.
  unfold loading_is_backed. intros Hw.
  destruct e; simpl; try assumption.
  - unfold getUserMedia_settled.
    destruct (existsb _ _); [destruct answer|]; simpl; assumption.
  - unfold handleCapture.
    destruct (isCameraOn _); [destruct frame|]; simpl; try assumption.
    intros H. destruct (Hw H) as (? & ? & ?). auto.
  - destruct file; simpl; assumption.
  - unfold read_settled. destruct (find _ _); [|assumption].
    unfold handleFileChange_resume. destruct (fileToBase64 _ _); simpl;
      intros H; destruct (Hw H) as (Hin & ? & ?).
    + split; [|auto]. exact Hin.
    + auto.
  - unfold selectScene. destruct (index _ _); simpl; [|assumption].
    intros H. destruct (Hw H) as (? & ? & ?). auto.
  - unfold handleGenerate.
    destruct (userImage (session w)) as [photo|] eqn:Hp;
      [destruct (selectedScene (session w)) as [scene|] eqn:Hs|]; simpl.
    + intros _. rewrite Hp, Hs. split; [|auto].
      intros H. now apply app_eq_nil in H as (_ & H).
    + rewrite Hp, Hs. exact Hw.
    + rewrite Hp. exact Hw.
  - unfold remote_settled. destruct (find _ _); [|assumption].
    unfold handleGenerate_resume. destruct (editImage _ _ _ _); simpl; discriminate.
  - discriminate.
Qed.

(** X16.  In every reachable state the loading flag is backed: while
    [isLoading] is true a remote call is in flight and the photo and the
    scene are still present.  The flag cannot stay on with nothing left
    to switch it off. *)
Theorem loading_means_call_in_flight (history : list Event) :
  isLoading (session (exec history)) = true ->
  inflight (exec history) <> [] /\
  present (userImage (session (exec history))) = true /\
  present (selectedScene (session (exec history))) = true.
Proof.
  change (loading_is_backed (exec history)).
  induction history as [|e history IH] using rev_ind.
  - discriminate.
  - rewrite exec_snoc. unfold loading_is_backed.
    rewrite session_step, inflight_step. now apply handle_loading_backed.
Qed.

Lemma loading_means_call_in_flight_witness :
  inflight (exec (Sample.scene_picked ++ [EvGenerate])) <> [] /\
  present (userImage (session (exec (Sample.scene_picked ++ [EvGenerate])))) = true /\
  present (selectedScene (session (exec (Sample.scene_picked ++ [EvGenerate])))) = true.
Proof.
  apply (loading_means_call_in_flight (Sample.scene_picked ++ [EvGenerate]) eq_refl).
Defined.

Lemma handle_scene_from_catalog (e : Event) (w : World) (scene : Scene) :
  selectedScene (session (handle e w)) = Some scene ->
  selectedScene (session w) = Some scene \/ In scene HISTORICAL_SCENES.
Proof.
  destruct e; simpl; auto.
  - unfold getUserMedia_settled.
    destruct (existsb _ _); [destruct answer|]; auto.
  - unfold handleCapture. destruct (isCameraOn _); [destruct frame|]; auto.
  - destruct file; auto.
  - unfold read_settled. destruct (find _ _); auto.
    unfold handleFileChange_resume. destruct (fileToBase64 _ _); auto.
  - unfold selectScene. destruct (index HISTORICAL_SCENES k) as [picked|] eqn:Hk; auto.
    intros H. cbn in H. injection H as <-. right. exact (nth_error_In _ _ Hk).
  - unfold handleGenerate.
    destruct (userImage (session w)) eqn:Hp;
      [destruct (selectedScene (session w)) eqn:Hs|]; simpl; rewrite ?Hs; auto.
  - unfold remote_settled. destruct (find _ _); auto.
    unfold handleGenerate_resume. destruct (editImage _ _ _ _); simpl; auto.
  - discriminate.
Qed.

Lemma selected_scene_in_catalog (history : list Event) (scene : Scene) :
  selectedScene (session (exec history)) = Some scene -> In scene HISTORICAL_SCENES.
Proof.
  induction history as [|e history IH] using rev_ind.
  - discriminate.
  - rewrite exec_snoc, session_step. intros H.
    apply handle_scene_from_catalog in H as [H|H]; auto.
Qed.

(** X17.  The scene is always one of the six of the catalog: in every
    reachable state the selected scene, and the scene of every call in
    flight, is an entry of [HISTORICAL_SCENES], and the instruction text
    of every call in flight is the template filled with that entry's
    fragment.  No other text is ever sent. *)
Theorem only_catalog_prompts_are_sent (history : list Event) :
  (forall scene,
      selectedScene (session (exec history)) = Some scene -> In scene HISTORICAL_SCENES)
  /\
  (forall p,
      In p (inflight (exec history)) ->
      In (edit_scene p) HISTORICAL_SCENES /\
      In (edit_prompt p) (map prompt_for HISTORICAL_SCENES)).
Proof.
  split; [apply selected_scene_in_catalog|].
  intros p Hp.
  destruct (inflight_issued history p Hp) as (before & between & _ & _ & Hs & _ & Hprompt).
  apply selected_scene_in_catalog in Hs.
  split; [exact Hs|]. rewrite Hprompt. now apply in_map.
Qed.

Lemma only_catalog_prompts_are_sent_witness :
  In Sample.rome HISTORICAL_SCENES.
Proof.
  apply (proj1 (only_catalog_prompts_are_sent Sample.scene_picked) Sample.rome eq_refl).
Defined.

Lemma find_after_other_settled (t1 t2 : nat) (l : list PendingEdit) :
  t1 <> t2 ->
  find (has_edit t2) (filter (fun q => negb (has_edit t1 q)) l) = find (has_edit t2) l.
Proof.
  intros Hne. induction l as [|q l IH]; simpl; [reflexivity|].
  destruct (has_edit t1 q) eqn:E1; simpl.
  - assert (E2 : has_edit t2 q = false).
    { unfold has_edit in *. apply Nat.eqb_eq in E1. apply Nat.eqb_neq. congruence. }
    rewrite E2. exact IH.
  - destruct (has_edit t2 q); [reflexivity|exact IH].
Qed.

(** X18.  With two calls in flight, the result on display is the one of
    the call that resolved last, whichever was issued first; it carries
    the media type of the photo that call was issued for. *)
Theorem last_resolved_call_wins
    (w : World) (t1 t2 : nat) (p1 p2 : PendingEdit)
    (remote1 remote2 : Settled GenerateContentResponse) (Q1 Q2 : string) :
  t1 <> t2 ->
  find (has_edit t1) (inflight w) = Some p1 ->
  find (has_edit t2) (inflight w) = Some p2 ->
  editImage (fun _ => remote1) (base64 (edit_userImage p1)) (mimeType (edit_userImage p1))
    (edit_prompt p1) = Fulfilled Q1 ->
  editImage (fun _ => remote2) (base64 (edit_userImage p2)) (mimeType (edit_userImage p2))
    (edit_prompt p2) = Fulfilled Q2 ->
  generatedImage (session (step (EvRemote t2 remote2) (step (EvRemote t1 remote1) w)))
  = Some (edited (edit_userImage p2) Q2).
Proof.
  intros Hne H1 H2 HQ1 HQ2.
  apply settle_applies; [|exact HQ2].
  rewrite inflight_step. simpl. unfold remote_settled. rewrite H1.
  unfold handleGenerate_resume. rewrite HQ1. simpl.
  now rewrite find_after_other_settled.
Qed.

Lemma last_resolved_call_wins_witness :
  offered_from boot Sample.two_calls = true /\
  userImage (session (exec Sample.two_calls)) = Some Sample.snapshot /\
  generatedImage
    (session (step (EvRemote 1 (Fulfilled Sample.captioned))
                (step (EvRemote 2 (Fulfilled Sample.captioned)) (exec Sample.two_calls))))
  = Some (edited Sample.photo "UQ==").
Proof.
  split; [reflexivity|]. split; [reflexivity|].
  apply (last_resolved_call_wins (exec Sample.two_calls) 2 1
           {| edit_ticket := 2; edit_userImage := Sample.snapshot;
              edit_scene := Sample.rome; edit_prompt := prompt_for Sample.rome |}
           {| edit_ticket := 1; edit_userImage := Sample.photo;
              edit_scene := Sample.rome; edit_prompt := prompt_for Sample.rome |}
           (Fulfilled Sample.captioned) (Fulfilled Sample.captioned) "UQ==" "UQ=="
           (Nat.neq_succ_diag_l 1) eq_refl eq_refl eq_refl eq_refl).
Defined.

(** ** What the page shows *)

(** X19.  The blocks of an image slot exclude one another the way the
    component intends: the error message and the image are never shown
    together, nor the error message and the spinner; the placeholder is
    shown exactly when neither spinner, error message nor image is, so
    the slot is never blank; and the clear button never accompanies the
    placeholder. *)
Theorem slot_blocks_exclusive (props : Page.ImageSlotProps) :
  let view := Page.ImageSlot props in
  present (Page.errorPanel view) && present (Page.image view) = false /\
  present (Page.errorPanel view) && Page.spinner view = false /\
  Page.placeholder view
  = negb (Page.spinner view || present (Page.errorPanel view) || present (Page.image view)) /\
  Page.clearButton view && Page.placeholder view = false.
Proof.
  destruct props as [title [imageUrl|] [|] [message|] [|]]; simpl;
    try destruct (truthy imageUrl); try destruct (truthy message); repeat split.
Qed.

(** Every stored result was built by [edited]. *)
Lemma generated_is_edited (history : list Event) (result : UserImage) :
  generatedImage (session (exec history)) = Some result ->
  exists photo Q, result = edited photo Q.
Proof.
  induction history as [|e history IH] using rev_ind.
  - discriminate.
  - rewrite exec_snoc, session_step. intros H.
    apply generatedImage_handle_inv in H as [H|(_ & _ & p & Q & _ & _ & _ & ->)]; eauto.
Qed.

(** X20.  In every reachable state the result slot, when the right panel
    renders it, has something to show: the spinner, the error message or
    the generated image.  Its placeholder text never appears. *)
Theorem result_slot_never_empty (history : list Event) (slot : Page.SlotView) :
  Page.renderRightPanel (session (exec history)) = Page.Result slot ->
  Page.placeholder slot = false /\
  Page.spinner slot || present (Page.errorPanel slot) || present (Page.image slot) = true.
Proof.
  intros Hslot.
  assert (Hempty : Page.placeholder slot = false).
  { unfold Page.renderRightPanel in Hslot.
    destruct (userImage (session (exec history))); [|discriminate].
    destruct (generatedImage (session (exec history))) as [result|] eqn:Hresult.
    - destruct (generated_is_edited history result Hresult) as (photo & Q & ->).
      simpl in Hslot. injection Hslot as <-. reflexivity.
    - simpl in Hslot.
      destruct (isLoading (session (exec history))) eqn:Hloading;
        simpl in Hslot.
      + injection Hslot as <-. reflexivity.
      + destruct (Page.truthy_opt (error (session (exec history)))) eqn:Herror;
          [|discriminate].
        injection Hslot as <-. simpl. now rewrite Herror. }
  split; [exact Hempty|].
  unfold Page.renderRightPanel in Hslot.
  destruct (userImage (session (exec history))); [|discriminate].
  destruct (_ || _ || _); [|discriminate].
  injection Hslot as <-.
  destruct (slot_blocks_exclusive
              {| Page.title := "Time-Travel Result";
                 Page.imageUrl :=
                   match generatedImage (session (exec history)) with
                   | Some result => if truthy (url result) then Some (url result) else None
                   | None => None
                   end;
                 Page.isLoading := isLoading (session (exec history));
                 Page.error := error (session (exec history));
                 Page.onClear := false |}) as (_ & _ & Hshown & _).
  rewrite Hempty in Hshown. symmetry in Hshown. now apply negb_false_iff in Hshown.
Qed.

Lemma result_slot_never_empty_witness :
  Page.placeholder
    (Page.ImageSlot
       {| Page.title := "Time-Travel Result"; Page.imageUrl := None;
          Page.isLoading := true; Page.error := None; Page.onClear := false |})
  = false.
Proof.
  apply (proj1 (result_slot_never_empty (Sample.scene_picked ++ [EvGenerate]) _ eq_refl)).
Defined.

(** X21.  Pressing the [k]-th scene button rings that button and no
    other: the comparison of line 216 singles out one entry, the ids of
    the catalog being distinct. *)
Theorem pressed_scene_is_the_one_ringed (w : World) (k : nat) (scene : Scene) :
  index HISTORICAL_SCENES k = Some scene ->
  map Page.ringed
    (map (Page.scene_button (session (step (EvSelectScene k) w))) HISTORICAL_SCENES)
  = map (Nat.eqb k) (seq 0 (length HISTORICAL_SCENES)).
Proof.
  intros Hk. rewrite session_step. simpl handle. unfold selectScene. rewrite Hk.
  do 6 (destruct k as [|k]; [cbv in Hk; injection Hk as <-; reflexivity|]).
  destruct k; discriminate.
Qed.

Lemma pressed_scene_is_the_one_ringed_witness :
  map Page.ringed
    (map (Page.scene_button (session (step (EvSelectScene 2) (exec Sample.scene_picked))))
       HISTORICAL_SCENES)
  = [false; false; true; false; false; false].
Proof.
  apply (pressed_scene_is_the_one_ringed (exec Sample.scene_picked) 2 _ eq_refl).
Defined.

(** The controls [offered] admits are the ones the render functions put
    on the page. *)
Lemma offered_is_on_page (e : Event) (w : World) :
  match e with
  | EvDevice _ _ | EvFileRead _ _ | EvRemote _ _ => True
  | _ => offered e w = Page.on_page e (session w)
  end.
Proof.
  destruct e; try exact I; simpl;
    unfold Page.renderLeftPanel, Page.renderRightPanel, picker_shown, present;
    destruct (isCameraOn (session w)); destruct (userImage (session w)); simpl;
      try reflexivity.
  - destruct (generatedImage _), (isLoading _), (error (session w)) as [m|];
      simpl; try reflexivity;
      try (destruct (truthy m); simpl; try reflexivity);
      repeat (destruct k as [|k]; try reflexivity).
  - destruct (generatedImage _), (isLoading _), (error (session w)) as [m|];
      simpl; try reflexivity;
      try (destruct (truthy m); simpl; try reflexivity);
      repeat (destruct k as [|k]; try reflexivity).
  - destruct (generatedImage _), (isLoading _), (error (session w)) as [m|];
      simpl; try reflexivity;
      try (destruct (truthy m); simpl; reflexivity).
  - destruct (generatedImage _), (isLoading _), (error (session w)) as [m|];
      simpl; try reflexivity;
      try (destruct (truthy m); simpl; reflexivity).
Qed.

(** ** Late answers and left-overs *)

(** X22.  A file read in progress is applied whenever it finishes: its
    photo replaces whatever photo has been captured in the meantime and
    comes back after a reset, and the error is cleared. *)
Theorem late_read_is_applied
    (w : World) (e : Event) (ticket : nat) (p : PendingRead)
    (read : ReadOutcome) (b : string) :
  find (has_read ticket) (reading w) = Some p ->
  e = EvReset \/ (exists frame, e = EvCapture frame) ->
  fileToBase64 (fun _ => read) (read_file p) = Fulfilled b ->
  let late := step (EvFileRead ticket read) (step e w) in
  userImage (session late)
  = Some {| base64 := b; url := objectURL (read_file p); mimeType := type (read_file p) |}
  /\ error (session late) = None.
Proof.
  intros Hfind He Hread late.
  assert (Hkept : reading (step e w) = reading w).
  { rewrite reading_step.
    destruct He as [-> | (frame & ->)]; simpl; [reflexivity|].
    unfold handleCapture. destruct (isCameraOn (session w)); [destruct frame|]; reflexivity. }
  unfold late. rewrite session_step. simpl. unfold read_settled.
  rewrite Hkept, Hfind. unfold handleFileChange_resume. rewrite Hread. simpl. auto.
Qed.

Lemma late_read_is_applied_witness :
  userImage
    (session (step (EvFileRead 0 Sample.portrait_read)
                (step EvReset (exec Sample.read_overtaken))))
  = Some Sample.photo
  /\ error (session (step (EvFileRead 0 Sample.portrait_read)
                       (step EvReset (exec Sample.read_overtaken))))
     = None.
Proof.
  apply (late_read_is_applied (exec Sample.read_overtaken) EvReset 0
           {| read_ticket := 0; read_file := Sample.portrait |}
           Sample.portrait_read "cGhvdG8=" eq_refl (or_introl eq_refl) eq_refl).
Defined.

(** The page offers every event of that history. *)
Example late_read_history_offered :
  offered_from boot
    (Sample.read_overtaken ++ [EvReset; EvFileRead 0 Sample.portrait_read]) = true.
Proof. vm_compute. reflexivity. Qed.

(** X23.  A new photo does not clear a result left from before: after an
    upload into a reachable state that still holds a result and is not
    loading, the right panel shows that old result in place of the scene
    picker, and neither a scene button nor the generate button is on the
    page. *)
Theorem old_result_hides_picker
    (history : list Event) (file : File) (prefix payload : string) (result : UserImage) :
  let w := exec history in
  generatedImage (session w) = Some result ->
  isLoading (session w) = false ->
  free_of "," prefix = true -> free_of "," payload = true -> payload <> ""%string ->
  let after :=
    step (EvFileRead (next_ticket w) (Loaded (prefix ++ String "," payload)%string))
      (step (EvFileChange (Some file)) w) in
  (exists slot,
      Page.renderRightPanel (session after) = Page.Result slot /\
      Page.image slot = Some (url result) /\
      Page.spinner slot = false /\ Page.errorPanel slot = None)
  /\ offered EvGenerate after = false
  /\ forall k, offered (EvSelectScene k) after = false.
Proof.
  intros w Hresult Hloading Hprefix Hpayload Hne after.
  destruct (generated_is_edited history result Hresult) as (photo & Q & ->).
  pose proof (proj1 (upload_outcome history file _) prefix payload
                eq_refl Hprefix Hpayload Hne) as Hsess.
  fold w in Hsess. fold after in Hsess.
  split; [|split].
  - eexists. unfold Page.renderRightPanel. rewrite Hsess. simpl.
    rewrite Hresult, Hloading. simpl. repeat split.
  - simpl. unfold picker_shown. rewrite Hsess. simpl. now rewrite Hresult.
  - intros k. simpl. unfold picker_shown. rewrite Hsess. simpl. now rewrite Hresult.
Qed.

Lemma old_result_hides_picker_witness :
  offered EvGenerate
    (step (EvFileRead 2 Sample.portrait_read)
       (step (EvFileChange (Some Sample.portrait)) (exec Sample.stale_result)))
  = false.
Proof.
  apply (proj1 (proj2 (old_result_hides_picker Sample.stale_result
                         Sample.portrait "data:image/png;base64" "cGhvdG8="
                         (edited Sample.photo "UQ==")
                         eq_refl eq_refl eq_refl eq_refl ltac:(discriminate)))).
Defined.

(** The page offers every event of that history. *)
Example stale_then_upload_offered :
  offered_from boot
    (Sample.stale_result
     ++ [EvFileChange (Some Sample.portrait); EvFileRead 2 Sample.portrait_read]) = true.
Proof. vm_compute. reflexivity. Qed.

(** ** The instruction text *)

Lemma append_cancel_l (a b c : string) : (a ++ b)%string = (a ++ c)%string -> b = c.
Proof.
  induction a as [|ch a IH]; simpl; [auto|].
  intros H. injection H as H. auto.
Qed.

Lemma append_length (a b : string) :
  String.length (a ++ b) = String.length a + String.length b.
Proof. induction a; simpl; auto. Qed.

Lemma append_cancel_r (a b c : string) : (a ++ c)%string = (b ++ c)%string -> a = b.
Proof.
  revert b. induction a as [|ch a IH]; intros [|ch' b] H; simpl in *.
  - reflexivity.
  - apply (f_equal String.length) in H. simpl in H. rewrite append_length in H. lia.
  - apply (f_equal String.length) in H. simpl in H. rewrite append_length in H. lia.
  - injection H as -> H. f_equal. auto.
Qed.

(** X24.  The template keeps scenes apart: two scenes get the same
    instruction text only if their prompt fragments are the same, and
    the six scenes of the catalog get six different texts. *)
Theorem prompt_tells_scenes_apart :
  (forall s1 s2 : Scene,
      prompt_for s1 = prompt_for s2 -> promptFragment s1 = promptFragment s2)
  /\ NoDup (map prompt_for HISTORICAL_SCENES).
Proof.
  assert (Hinj : forall s1 s2 : Scene,
             prompt_for s1 = prompt_for s2 -> promptFragment s1 = promptFragment s2).
  { unfold prompt_for. intros s1 s2 H.
    apply append_cancel_l in H. now apply append_cancel_r in H. }
  split; [exact Hinj|].
  simpl. repeat constructor; simpl;
    intros H; repeat (destruct H as [H|H]; [apply Hinj in H; discriminate H|]);
      exact H.
Qed.

Lemma prompt_tells_scenes_apart_witness :
  promptFragment Sample.rome = promptFragment Sample.rome.
Proof.
  apply (proj1 prompt_tells_scenes_apart Sample.rome Sample.rome eq_refl).
Defined.


(** ** Where the code misses a case *)

(** C2.  The code departs from it on responses that have no parts list.
    A response without a first candidate, or whose first candidate
    lacks its content or its parts, carries no image data in any part;
    still [editImage] does not reject with the no-image error but with
    the [TypeError] thrown by the access of line 40. *)
Theorem editImage_incomplete_response_rejects_with_type_error
    (generateContent : GenerateContentParameters -> Settled GenerateContentResponse)
    (base64Image mimeType prompt : string)
    (response : GenerateContentResponse) (e : Thrown) :
  generateContent (editImage_request base64Image mimeType prompt) = Fulfilled response ->
  existsb carries_image (every_part response) = false ->
  response_parts response = inl e ->
  editImage generateContent base64Image mimeType prompt = Rejected e /\
  e <> NoImageReturned /\
  exists message, e = ErrorObject "TypeError" message.
Proof.
  intros Hremote _ Hparts.
  destruct (response_parts_error response e Hparts) as (message & ->).
  split; [|split; [discriminate|eauto]].
  unfold editImage, editImage_resume. now rewrite Hremote, Hparts.
Qed.

Lemma editImage_incomplete_response_rejects_with_type_error_witness :
  editImage (fun _ => Fulfilled Sample.no_candidates) "cGhvdG8=" "image/jpeg" "to Rome"
  = Rejected (readOfUndefined "content")
  /\ editImage (fun _ => Fulfilled Sample.blocked) "cGhvdG8=" "image/jpeg" "to Rome"
     = Rejected (readOfUndefined "parts").
Proof.
  split.
  - apply (proj1 (editImage_incomplete_response_rejects_with_type_error
                    (fun _ => Fulfilled Sample.no_candidates)
                    "cGhvdG8=" "image/jpeg" "to Rome"
                    Sample.no_candidates (readOfUndefined "content")
                    eq_refl eq_refl eq_refl)).
  - apply (proj1 (editImage_incomplete_response_rejects_with_type_error
                    (fun _ => Fulfilled Sample.blocked)
                    "cGhvdG8=" "image/jpeg" "to Rome"
                    Sample.blocked (readOfUndefined "parts")
                    eq_refl eq_refl eq_refl)).
Defined.

Lemma live_track_not_ended : ~ Forall all_ended [Sample.webcam].
Proof.
  intros H. inversion H as [|ms rest Hms _]; subst.
  inversion Hms as [|t ts Ht _]; subst. discriminate Ht.
Qed.

(** C7.  The code departs from it for a stream granted late.  In the
    history "Use Camera", "Cancel" before the device has answered, the
    grant of the stream, an upload, reset, every event is one the page
    offers.  The reset puts the six state cells back to their initial
    values, but the stream is live before it and live after it: the
    cleanup ran at "Cancel", when the run's variable was still [null],
    and the reset finds the camera already off and runs no cleanup. *)
Theorem reset_leaves_late_stream_live :
  offered_from boot (Sample.late_grant ++ [EvReset]) = true /\
  streams (exec Sample.late_grant) = [Sample.webcam] /\
  effect_stream (exec Sample.late_grant) = None /\
  isCameraOn (session (exec Sample.late_grant)) = false /\
  Idle (session (step EvReset (exec Sample.late_grant))) /\
  streams (step EvReset (exec Sample.late_grant)) = [Sample.webcam] /\
  ~ Forall all_ended (streams (step EvReset (exec Sample.late_grant))).
Proof.
  assert (Hafter : streams (step EvReset (exec Sample.late_grant)) = [Sample.webcam])
    by (vm_compute; reflexivity).
  split; [vm_compute; reflexivity|].
  split; [vm_compute; reflexivity|].
  split; [vm_compute; reflexivity|].
  split; [vm_compute; reflexivity|].
  split; [vm_compute; reflexivity|].
  split; [exact Hafter|].
  rewrite Hafter. exact live_track_not_ended.
Qed.
